(** * CppBenchmark: the System class (source/system.cpp)

    A shallow embedding of the host queries of [CppBenchmark::System] and of
    the helper [Internals::CountSetBits], with the operating system made an
    explicit argument: every query of the source is a function of the answers
    the OS gives to the calls the query makes. *)

From Stdlib Require Import ZArith List Bool Ascii String Lia Permutation.
Import ListNotations.

Local Open Scope Z_scope.

(** ** Machine integers

    The C++ integer types are modelled as [Z] with the wrap-around of each
    conversion written out. *)

Definition wrap_unsigned (bits z : Z) : Z := z mod 2 ^ bits.

Definition wrap_signed (bits z : Z) : Z :=
  (z + 2 ^ (bits - 1)) mod 2 ^ bits - 2 ^ (bits - 1).

(** [DWORD] is a 32-bit unsigned integer. *)
Definition to_DWORD : Z -> Z := wrap_unsigned 32.
(** [int] is a 32-bit signed integer on both platform families. *)
Definition to_int : Z -> Z := wrap_signed 32.
Definition to_int64 : Z -> Z := wrap_signed 64.

Definition INT_MAX : Z := 2 ^ 31 - 1.

(** Width of a pointer, hence of [ULONG_PTR] on Windows and of [long] on
    Unix (ILP32 / LP64). *)
Inductive PointerWidth : Type := Bits32 | Bits64.

Definition sizeof_pointer (pw : PointerWidth) : Z :=
  match pw with Bits32 => 4 | Bits64 => 8 end.

Definition pointer_bits (pw : PointerWidth) : Z := sizeof_pointer pw * 8.

(** ** Internals::CountSetBits *)

Module Internals.

Section CountSetBits.

Variable pw : PointerWidth.

(** The body of the [for] loop, run [iterations] times: the bit under
    [pBitTest] is tested and [pBitTest] is halved. *)
Fixpoint CountSetBits_loop (iterations : nat)
         (pBitMask pBitTest dwBitSetCount : Z) : Z :=
  match iterations with
  | O => dwBitSetCount
  | S rest =>
      let dwBitSetCount' :=
        to_DWORD (dwBitSetCount
                  + (if Z.land pBitMask pBitTest =? 0 then 0 else 1)) in
      CountSetBits_loop rest pBitMask (pBitTest / 2) dwBitSetCount'
  end.

(** [for (DWORD i = 0; i <= dwLeftShift; ++i)] runs [dwLeftShift + 1]
    times. *)
Definition CountSetBits (pBitMask : Z) : Z :=
  let dwLeftShift := to_DWORD (sizeof_pointer pw * 8 - 1) in
  let dwBitSetCount := 0 in
  let pBitTest := wrap_unsigned (pointer_bits pw) (Z.shiftl 1 dwLeftShift) in
  CountSetBits_loop (Z.to_nat (dwLeftShift + 1)) pBitMask pBitTest
                    dwBitSetCount.

End CountSetBits.

End Internals.

(** ** Population count, as a specification *)

Fixpoint Pos_popcount (p : positive) : Z :=
  match p with
  | xH => 1
  | xO q => Pos_popcount q
  | xI q => 1 + Pos_popcount q
  end.

(** Number of set bits of a non-negative integer. *)
Definition popcount (z : Z) : Z :=
  match z with
  | Zpos p => Pos_popcount p
  | _ => 0
  end.

(** Number of set bits among the [n] lowest bits, highest first. *)
Fixpoint count_bits (n : nat) (m : Z) : Z :=
  match n with
  | O => 0
  | S k => Z.b2z (Z.testbit m (Z.of_nat k)) + count_bits k m
  end.

(** ** Text: characters, the two patterns, atoi *)

Local Open Scope string_scope.
Local Open Scope Z_scope.

Definition char_code (c : ascii) : Z := Z.of_N (N_of_ascii c).

Definition TAB : ascii := "009"%char.
Definition LF : ascii := "010"%char.
Definition VT : ascii := "011"%char.
Definition FF : ascii := "012"%char.
Definition CR : ascii := "013"%char.
Definition NUL : ascii := "000"%char.

(** The class [\s] of [std::regex] and the [isspace] that [atoi] skips, in
    the "C" locale: space and the five control characters 9 to 13. *)
Definition isspace (c : ascii) : bool :=
  (char_code c =? 32) || ((9 <=? char_code c) && (char_code c <=? 13)).

(** The wildcard [.] of the ECMAScript grammar: any character but a line
    terminator. *)
Definition any_char (c : ascii) : bool :=
  negb (Ascii.eqb c LF) && negb (Ascii.eqb c CR).

Definition isdigit (c : ascii) : bool :=
  (48 <=? char_code c) && (char_code c <=? 57).

Fixpoint all_chars (p : ascii -> bool) (s : string) : bool :=
  match s with
  | EmptyString => true
  | String c s' => p c && all_chars p s'
  end.

(** Consumes the literal [lit] at the start of [s]. *)
Fixpoint strip_literal (lit s : string) : option string :=
  match lit, s with
  | EmptyString, _ => Some s
  | String c lit', String d s' =>
      if Ascii.eqb c d then strip_literal lit' s' else None
  | String _ _, EmptyString => None
  end.

(** The greedy run of [\s]. *)
Fixpoint skip_spaces (s : string) : string :=
  match s with
  | String c s' => if isspace c then skip_spaces s' else s
  | EmptyString => EmptyString
  end.

(** [std::regex_match(text, matches, pattern)] for the two patterns of the
    source, which are a label, [\s] any number of times, a colon, a blank
    and one group of wildcards up to the end. The whole of [text] has to
    match; the result is [matches[1]]. After the greedy run of [\s] the
    next character has to be the colon, which is no space, so giving spaces
    back never helps. *)
Definition regex_match_field (label text : string) : option string :=
  match strip_literal label text with
  | None => None
  | Some after_label =>
      match strip_literal ": " (skip_spaces after_label) with
      | None => None
      | Some group => if all_chars any_char group then Some group else None
      end
  end.

(** The meaning of such a pattern on a whole text, written as a
    decomposition of the text. *)
Definition field_pattern_matches (label text group : string) : Prop :=
  exists spaces : string,
    all_chars isspace spaces = true /\
    all_chars any_char group = true /\
    text = label ++ spaces ++ ": " ++ group.

(** The fragment of the regular expressions that the two patterns use, and
    what it means for a whole text to match one. *)
Inductive regex : Type :=
| Empty
| Chr (c : ascii)
| Class (p : ascii -> bool)
| Seq (r1 r2 : regex)
| Star (r : regex).

Inductive matches : regex -> string -> Prop :=
| matches_Empty : matches Empty EmptyString
| matches_Chr (c : ascii) : matches (Chr c) (String c EmptyString)
| matches_Class (p : ascii -> bool) (c : ascii) :
    p c = true -> matches (Class p) (String c EmptyString)
| matches_Seq (r1 r2 : regex) (s1 s2 : string) :
    matches r1 s1 -> matches r2 s2 -> matches (Seq r1 r2) (s1 ++ s2)
| matches_Star_nil (r : regex) : matches (Star r) EmptyString
| matches_Star_cons (r : regex) (s1 s2 : string) :
    matches r s1 -> matches (Star r) s2 -> matches (Star r) (s1 ++ s2).

Fixpoint literal (s : string) : regex :=
  match s with
  | EmptyString => Empty
  | String c s' => Seq (Chr c) (literal s')
  end.

(** The pattern of [CpuArchitecture] is [field_regex "model name"], the
    pattern of [CpuClockSpeed] is [field_regex "cpu MHz"]; the last factor
    is the capture group. *)
Definition field_regex (label : string) : regex :=
  Seq (literal label)
      (Seq (Star (Class isspace))
           (Seq (literal ": ") (Star (Class any_char)))).

Fixpoint atoi_digits (s : string) (acc : Z) : Z :=
  match s with
  | String c s' =>
      if isdigit c then atoi_digits s' (acc * 10 + (char_code c - 48))
      else acc
  | EmptyString => acc
  end.

(** C's [atoi]: leading white space, an optional sign, then decimal digits
    up to the first other character (the terminating NUL of [c_str()]
    included); no digits give 0. The value is the mathematical one: C leaves
    the call undefined when it does not fit [int]. *)
Definition atoi (s : string) : Z :=
  match skip_spaces s with
  | String "-"%char s' => - atoi_digits s' 0
  | String "+"%char s' => atoi_digits s' 0
  | s' => atoi_digits s' 0
  end.

(** [std::string(pBuffer)]: the bytes before the first NUL. *)
Fixpoint until_NUL (s : string) : string :=
  match s with
  | String c s' =>
      if Ascii.eqb c NUL then EmptyString else String c (until_NUL s')
  | EmptyString => EmptyString
  end.

Fixpoint last_char (s : string) : option ascii :=
  match s with
  | EmptyString => None
  | String c EmptyString => Some c
  | String _ s' => last_char s'
  end.

(** ** The operating system, Windows family *)

Definition ERROR_SUCCESS : Z := 0.
Definition ERROR_INSUFFICIENT_BUFFER : Z := 122.
Definition _MAX_PATH : Z := 260.

(** [LOGICAL_PROCESSOR_RELATIONSHIP]: the enumerators the source names. *)
Definition RelationProcessorCore : Z := 0.
Definition RelationNumaNode : Z := 1.
Definition RelationCache : Z := 2.
Definition RelationProcessorPackage : Z := 3.

(** The two fields of [SYSTEM_LOGICAL_PROCESSOR_INFORMATION] the source
    reads. *)
Record SYSTEM_LOGICAL_PROCESSOR_INFORMATION : Type := {
  ProcessorMask : Z;
  Relationship : Z
}.

(** One call of [GetLogicalProcessorInformation(pBuffer, &dwLength)]:
    either it returns TRUE and the buffer holds the given complete records
    ([dwLength] bytes), or it returns FALSE with the given [GetLastError()];
    [malloc_ok] tells whether the [malloc(dwLength)] that follows an
    [ERROR_INSUFFICIENT_BUFFER] returns a buffer. *)
Inductive GLPI_outcome : Type :=
| GLPI_TRUE (records : list SYSTEM_LOGICAL_PROCESSOR_INFORMATION)
| GLPI_FALSE (last_error : Z) (malloc_ok : bool).

Record MEMORYSTATUSEX : Type := {
  ullTotalPhys : Z;
  ullAvailPhys : Z
}.

Record WindowsOS : Type := {
  win_pointer : PointerWidth;
  (** result of [RegOpenKeyEx] on [...\CentralProcessor\0] *)
  RegOpenKeyEx_result : Z;
  (** [RegQueryValueEx] of ["ProcessorNameString"]: result and the bytes it
      stores in the zeroed buffer of [_MAX_PATH] bytes *)
  ProcessorNameString_result : Z;
  ProcessorNameString_data : string;
  (** [RegQueryValueEx] of ["~MHz"]: result and the [DWORD] it stores *)
  MHz_result : Z;
  MHz_data : Z;
  (** the answers of the successive [GetLogicalProcessorInformation] calls *)
  GLPI_calls : list GLPI_outcome;
  (** [GlobalMemoryStatusEx]: the filled structure, or [None] when the call
      fails and leaves the structure as it was *)
  GlobalMemoryStatusEx_result : option MEMORYSTATUSEX;
  (** what the uninitialised local [status] holds before the call *)
  status_uninitialised : MEMORYSTATUSEX
}.

(** ** The operating system, Unix family *)

Record struct_sysinfo : Type := {
  totalram : Z;
  freeram : Z
}.

Record UnixOS : Type := {
  unix_pointer : PointerWidth;
  (** content of [/proc/cpuinfo], or [None] when it cannot be opened *)
  proc_cpuinfo : option string;
  (** the [long] that [sysconf(_SC_NPROCESSORS_ONLN)] returns *)
  sysconf_NPROCESSORS_ONLN : Z;
  (** [sysinfo(&si)]: its return value and the structure it fills *)
  sysinfo_result : Z;
  sysinfo_si : struct_sysinfo
}.

Inductive OS : Type :=
| Windows (w : WindowsOS)
| Unix (u : UnixOS).

(** [std::string cpuinfo(istreambuf_iterator(stream), istreambuf_iterator())]:
    a stream that failed to open yields no character. *)
Definition read_all (file : option string) : string :=
  match file with
  | Some content => content
  | None => EmptyString
  end.

(** What the OS says of the calling thread: the [DWORD] that
    [GetCurrentThreadId()] returns, or the [pthread_t] that [pthread_self()]
    returns, an [unsigned long] of the width of a pointer. *)
Inductive ThreadOS : Type :=
| WindowsThread (GetCurrentThreadId_result : Z)
| UnixThread (pw : PointerWidth) (pthread_self_result : Z).

(** ** System *)

Module System.

Definition unknown : string := "<unknown>".

Definition CpuArchitecture (os : OS) : string :=
  match os with
  | Windows w =>
      if negb (RegOpenKeyEx_result w =? ERROR_SUCCESS) then unknown
      else if negb (ProcessorNameString_result w =? ERROR_SUCCESS) then unknown
      else until_NUL (ProcessorNameString_data w)
  | Unix u =>
      let cpuinfo := read_all (proc_cpuinfo u) in
      match regex_match_field "model name" cpuinfo with
      | Some group => group
      | None => unknown
      end
  end.

(** The first loop of [CpuTotalCores]: [None] when the given answers end
    before the loop does; [Some None] when the function returns
    [(-1, -1)] from inside the loop; [Some (Some records)] when the loop
    ends with [allocated == TRUE]. *)
Fixpoint allocate_loop (calls : list GLPI_outcome)
  : option (option (list SYSTEM_LOGICAL_PROCESSOR_INFORMATION)) :=
  match calls with
  | [] => None
  | GLPI_TRUE records :: _ => Some (Some records)
  | GLPI_FALSE last_error malloc_ok :: calls' =>
      if last_error =? ERROR_INSUFFICIENT_BUFFER then
        if malloc_ok then allocate_loop calls' else Some None
      else Some None
  end.

(** The second loop of [CpuTotalCores], one turn per complete record of the
    buffer: [dwOffset + sizeof(...) <= dwLength] holds as long as a complete
    record is left. [result.first += CountSetBits(...)] adds a [DWORD] to
    an [int], so the sum is formed in 32 unsigned bits and converted back;
    [result.second += 1] is written with the same conversion, and stays
    below the overflow for every buffer whose length fits a [DWORD]. *)
Fixpoint scan_records (pw : PointerWidth)
         (records : list SYSTEM_LOGICAL_PROCESSOR_INFORMATION)
         (result : Z * Z) : Z * Z :=
  match records with
  | [] => result
  | pCurrent :: records' =>
      if Relationship pCurrent =? RelationProcessorCore then
        scan_records pw records'
          (to_int (to_DWORD (fst result)
                   + Internals.CountSetBits pw (ProcessorMask pCurrent)),
           to_int (snd result + 1))
      else if (Relationship pCurrent =? RelationNumaNode)
              || (Relationship pCurrent =? RelationCache)
              || (Relationship pCurrent =? RelationProcessorPackage) then
        scan_records pw records' result
      else (-1, -1)
  end.

(** [None]: the Windows loop around [GetLogicalProcessorInformation] has
    not ended within the answers given. *)
Definition CpuTotalCores (os : OS) : option (Z * Z) :=
  match os with
  | Windows w =>
      match allocate_loop (GLPI_calls w) with
      | None => None
      | Some None => Some (-1, -1)
      | Some (Some records) =>
          Some (scan_records (win_pointer w) records (0, 0))
      end
  | Unix u =>
      let processors :=
        wrap_signed (pointer_bits (unix_pointer u))
                    (sysconf_NPROCESSORS_ONLN u) in
      Some (to_int processors, to_int processors)
  end.

Definition CpuLogicalCores (os : OS) : option Z :=
  option_map fst (CpuTotalCores os).

Definition CpuPhysicalCores (os : OS) : option Z :=
  option_map snd (CpuTotalCores os).

Definition CpuClockSpeed (os : OS) : Z :=
  match os with
  | Windows w =>
      if negb (RegOpenKeyEx_result w =? ERROR_SUCCESS) then -1
      else if negb (MHz_result w =? ERROR_SUCCESS) then -1
      else
        let dwMHz := to_DWORD (MHz_data w) in
        to_int64 (to_DWORD (to_DWORD (dwMHz * 1000) * 1000))
  | Unix u =>
      let cpuinfo := read_all (proc_cpuinfo u) in
      match regex_match_field "cpu MHz" cpuinfo with
      | Some group => atoi (until_NUL group)
      | None => -1
      end
  end.

Definition CpuHyperThreading (os : OS) : option bool :=
  match CpuTotalCores os with
  | Some cores => Some (negb (fst cores =? snd cores))
  | None => None
  end.

(** On Windows the result of [GlobalMemoryStatusEx] is not looked at: the
    field is read from [status] whatever the call did to it. On Unix the two
    branches of [?:] are brought to [unsigned long] before the conversion to
    [int64_t]. *)
Definition memory_status (w : WindowsOS) : MEMORYSTATUSEX :=
  match GlobalMemoryStatusEx_result w with
  | Some filled => filled
  | None => status_uninitialised w
  end.

Definition RamTotal (os : OS) : Z :=
  match os with
  | Windows w => to_int64 (wrap_unsigned 64 (ullTotalPhys (memory_status w)))
  | Unix u =>
      let ulong := wrap_unsigned (pointer_bits (unix_pointer u)) in
      to_int64 (if sysinfo_result u =? 0
                then ulong (totalram (sysinfo_si u)) else ulong (-1))
  end.

Definition RamFree (os : OS) : Z :=
  match os with
  | Windows w => to_int64 (wrap_unsigned 64 (ullAvailPhys (memory_status w)))
  | Unix u =>
      let ulong := wrap_unsigned (pointer_bits (unix_pointer u)) in
      to_int64 (if sysinfo_result u =? 0
                then ulong (freeram (sysinfo_si u)) else ulong (-1))
  end.

(** The value of the OS is converted to the [int] the function returns. *)
Definition CurrentThreadId (thread : ThreadOS) : Z :=
  match thread with
  | WindowsThread id => to_int (to_DWORD id)
  | UnixThread pw self => to_int (wrap_unsigned (pointer_bits pw) self)
  end.

End System.

(** ** Predicates used in the statements *)

(** The [default:] label of the [switch]: a tag that is none of the four
    the source names. *)
Definition unsupported_relationship (tag : Z) : bool :=
  negb ((tag =? RelationProcessorCore) || (tag =? RelationNumaNode)
        || (tag =? RelationCache) || (tag =? RelationProcessorPackage)).

(** A processor-core record names at least one logical processor, within
    the width of [ULONG_PTR]. *)
Definition core_mask_nonempty (pw : PointerWidth)
           (e : SYSTEM_LOGICAL_PROCESSOR_INFORMATION) : bool :=
  implb (Relationship e =? RelationProcessorCore)
        ((0 <? ProcessorMask e) && (ProcessorMask e <? 2 ^ pointer_bits pw)).

(** The records of a buffer are plausible: every core has a non-empty mask,
    and there are few enough records for the counts to stay within [int]. *)
Definition plausible_records (pw : PointerWidth)
           (records : list SYSTEM_LOGICAL_PROCESSOR_INFORMATION) : bool :=
  forallb (core_mask_nonempty pw) records
  && (Z.of_nat (List.length records) * pointer_bits pw <=? INT_MAX).

(** What the processor topology is assumed to be for the ordering of the two
    counts: plausible records on Windows; on Unix, [sysconf] returns -1 or a
    count, and the count fits [int]. *)
Definition plausible_topology (os : OS) : bool :=
  match os with
  | Windows w =>
      match System.allocate_loop (GLPI_calls w) with
      | Some (Some records) => plausible_records (win_pointer w) records
      | _ => true
      end
  | Unix u =>
      (-1 <=? sysconf_NPROCESSORS_ONLN u)
      && (sysconf_NPROCESSORS_ONLN u <=? INT_MAX)
  end.

(** The processor description the OS hands over is the empty text: on
    Windows both registry calls succeed and the value stored is empty or
    starts with a NUL; on Unix the file is the label, white space, a colon
    and a blank, and nothing more. *)
Definition empty_descriptor (os : OS) : Prop :=
  match os with
  | Windows w =>
      RegOpenKeyEx_result w = ERROR_SUCCESS /\
      ProcessorNameString_result w = ERROR_SUCCESS /\
      (ProcessorNameString_data w = EmptyString \/
       exists rest, ProcessorNameString_data w = String NUL rest)
  | Unix u =>
      field_pattern_matches "model name" (read_all (proc_cpuinfo u))
                            EmptyString
  end.

(** An answer of [GetLogicalProcessorInformation] after which the first
    loop of [CpuTotalCores] ends, one way or the other. *)
Definition ends_allocate_loop (answer : GLPI_outcome) : bool :=
  match answer with
  | GLPI_TRUE _ => true
  | GLPI_FALSE last_error malloc_ok =>
      negb ((last_error =? ERROR_INSUFFICIENT_BUFFER) && malloc_ok)
  end.

(** ** Sample hosts *)

Definition core (mask : Z) : SYSTEM_LOGICAL_PROCESSOR_INFORMATION :=
  {| ProcessorMask := mask; Relationship := RelationProcessorCore |}.

Definition other_record (mask tag : Z) : SYSTEM_LOGICAL_PROCESSOR_INFORMATION :=
  {| ProcessorMask := mask; Relationship := tag |}.

(** The usual course of the first loop: the first call asks for the size,
    the second fills the buffer. *)
Definition two_calls (records : list SYSTEM_LOGICAL_PROCESSOR_INFORMATION)
  : list GLPI_outcome :=
  [GLPI_FALSE ERROR_INSUFFICIENT_BUFFER true; GLPI_TRUE records].

(** Four cores of two hardware threads each. *)
Definition quad_core_ht : list SYSTEM_LOGICAL_PROCESSOR_INFORMATION :=
  [core 3; core 12; other_record 255 RelationCache; core 48; core 192;
   other_record 255 RelationProcessorPackage;
   other_record 255 RelationNumaNode].

Definition windows_host : WindowsOS :=
  {| win_pointer := Bits64;
     RegOpenKeyEx_result := ERROR_SUCCESS;
     ProcessorNameString_result := ERROR_SUCCESS;
     ProcessorNameString_data :=
       "Intel(R) Core(TM) i7-4790K CPU @ 4.00GHz" ++ String NUL EmptyString;
     MHz_result := ERROR_SUCCESS;
     MHz_data := 3998;
     GLPI_calls := two_calls quad_core_ht;
     GlobalMemoryStatusEx_result :=
       Some {| ullTotalPhys := 17179869184; ullAvailPhys := 8589934592 |};
     status_uninitialised :=
       {| ullTotalPhys := 140726000000000; ullAvailPhys := 4199040 |} |}.

Definition with_GLPI_calls (calls : list GLPI_outcome) (w : WindowsOS)
  : WindowsOS :=
  {| win_pointer := win_pointer w;
     RegOpenKeyEx_result := RegOpenKeyEx_result w;
     ProcessorNameString_result := ProcessorNameString_result w;
     ProcessorNameString_data := ProcessorNameString_data w;
     MHz_result := MHz_result w;
     MHz_data := MHz_data w;
     GLPI_calls := calls;
     GlobalMemoryStatusEx_result := GlobalMemoryStatusEx_result w;
     status_uninitialised := status_uninitialised w |}.

Definition with_MHz (mhz : Z) (w : WindowsOS) : WindowsOS :=
  {| win_pointer := win_pointer w;
     RegOpenKeyEx_result := RegOpenKeyEx_result w;
     ProcessorNameString_result := ProcessorNameString_result w;
     ProcessorNameString_data := ProcessorNameString_data w;
     MHz_result := MHz_result w;
     MHz_data := mhz;
     GLPI_calls := GLPI_calls w;
     GlobalMemoryStatusEx_result := GlobalMemoryStatusEx_result w;
     status_uninitialised := status_uninitialised w |}.

Definition with_ProcessorNameString (data : string) (w : WindowsOS)
  : WindowsOS :=
  {| win_pointer := win_pointer w;
     RegOpenKeyEx_result := RegOpenKeyEx_result w;
     ProcessorNameString_result := ProcessorNameString_result w;
     ProcessorNameString_data := data;
     MHz_result := MHz_result w;
     MHz_data := MHz_data w;
     GLPI_calls := GLPI_calls w;
     GlobalMemoryStatusEx_result := GlobalMemoryStatusEx_result w;
     status_uninitialised := status_uninitialised w |}.

Definition with_GlobalMemoryStatusEx (answer : option MEMORYSTATUSEX)
           (w : WindowsOS) : WindowsOS :=
  {| win_pointer := win_pointer w;
     RegOpenKeyEx_result := RegOpenKeyEx_result w;
     ProcessorNameString_result := ProcessorNameString_result w;
     ProcessorNameString_data := ProcessorNameString_data w;
     MHz_result := MHz_result w;
     MHz_data := MHz_data w;
     GLPI_calls := GLPI_calls w;
     GlobalMemoryStatusEx_result := answer;
     status_uninitialised := status_uninitialised w |}.

Definition line (text : string) : string := text ++ String LF EmptyString.

Definition field (label value : string) : string :=
  label ++ String TAB EmptyString ++ ": " ++ value.

(** The head of a [/proc/cpuinfo] as Linux on x86 prints it. *)
Definition cpuinfo_sample : string :=
  line (field "processor" "0")
  ++ line (field "vendor_id" "GenuineIntel")
  ++ line (field "cpu family" "6")
  ++ line (field "model" "60")
  ++ line (field "model name" "Intel(R) Core(TM) i7-4790K CPU @ 4.00GHz")
  ++ line (field "stepping" "3")
  ++ line (field "cpu MHz" "3998.000").

(** [text] has the line [l]: [l] and a line feed, at the start of the text
    or right after another line feed. *)
Definition has_line (l text : string) : Prop :=
  exists before after : string,
    text = before ++ line l ++ after /\
    (before = EmptyString \/ last_char before = Some LF).

Definition unix_host : UnixOS :=
  {| unix_pointer := Bits64;
     proc_cpuinfo := Some cpuinfo_sample;
     sysconf_NPROCESSORS_ONLN := 8;
     sysinfo_result := 0;
     sysinfo_si := {| totalram := 17179869184; freeram := 8589934592 |} |}.

Definition with_cpuinfo (file : option string) (u : UnixOS) : UnixOS :=
  {| unix_pointer := unix_pointer u;
     proc_cpuinfo := file;
     sysconf_NPROCESSORS_ONLN := sysconf_NPROCESSORS_ONLN u;
     sysinfo_result := sysinfo_result u;
     sysinfo_si := sysinfo_si u |}.

Definition with_sysinfo_failing (pw : PointerWidth) (u : UnixOS) : UnixOS :=
  {| unix_pointer := pw;
     proc_cpuinfo := proc_cpuinfo u;
     sysconf_NPROCESSORS_ONLN := sysconf_NPROCESSORS_ONLN u;
     sysinfo_result := -1;
     sysinfo_si := sysinfo_si u |}.

(** ** Quantities used in the further statements *)

Definition is_core (e : SYSTEM_LOGICAL_PROCESSOR_INFORMATION) : bool :=
  Relationship e =? RelationProcessorCore.

Definition core_records
           (records : list SYSTEM_LOGICAL_PROCESSOR_INFORMATION)
  : list SYSTEM_LOGICAL_PROCESSOR_INFORMATION :=
  filter is_core records.

Definition sum_Z (l : list Z) : Z := fold_right Z.add 0 l.

(** The logical processors that the core records of a buffer name. *)
Definition logical_processors
           (records : list SYSTEM_LOGICAL_PROCESSOR_INFORMATION) : Z :=
  sum_Z (map (fun e => popcount (ProcessorMask e)) (core_records records)).

Definition physical_cores
           (records : list SYSTEM_LOGICAL_PROCESSOR_INFORMATION) : Z :=
  Z.of_nat (List.length (core_records records)).

(** Every record carries one of the four tags the [switch] names, every
    mask fits [ULONG_PTR], and the counts stay within [int]. *)
Definition supported_records (pw : PointerWidth)
           (records : list SYSTEM_LOGICAL_PROCESSOR_INFORMATION) : bool :=
  forallb (fun e => negb (unsupported_relationship (Relationship e))) records
  && forallb (fun e => (0 <=? ProcessorMask e)
                       && (ProcessorMask e <? 2 ^ pointer_bits pw)) records
  && (Z.of_nat (List.length records) * pointer_bits pw <=? INT_MAX).

(** An answer after which the first loop of [CpuTotalCores] asks again. *)
Definition asks_again (answer : GLPI_outcome) : bool :=
  negb (ends_allocate_loop answer).

(** What one processor-core record does to the pair of counts. *)
Definition count_core (pw : PointerWidth)
           (e : SYSTEM_LOGICAL_PROCESSOR_INFORMATION) (result : Z * Z)
  : Z * Z :=
  (to_int (to_DWORD (fst result)
           + Internals.CountSetBits pw (ProcessorMask e)),
   to_int (snd result + 1)).




(** * Properties *)

(** ** Examples: the scenarios of the specification *)

Example CountSetBits_0xF0 : Internals.CountSetBits Bits64 240 = 4.
Proof. reflexivity. Qed.

Example CountSetBits_top_bit : Internals.CountSetBits Bits32 (2 ^ 31) = 1.
Proof. reflexivity. Qed.

Example quad_core_ht_counts :
  System.CpuTotalCores (Windows windows_host) = Some (8, 4) /\
  System.CpuHyperThreading (Windows windows_host) = Some true.
Proof. split; reflexivity. Qed.

Example single_core_counts :
  let os := Windows (with_GLPI_calls (two_calls [core 1]) windows_host) in
  System.CpuTotalCores os = Some (1, 1) /\
  System.CpuHyperThreading os = Some false.
Proof. split; reflexivity. Qed.

Example missing_cpuinfo :
  let os := Unix (with_cpuinfo None unix_host) in
  System.CpuArchitecture os = "<unknown>" /\ System.CpuClockSpeed os = -1.
Proof. split; reflexivity. Qed.

Example windows_architecture :
  System.CpuArchitecture (Windows windows_host)
  = "Intel(R) Core(TM) i7-4790K CPU @ 4.00GHz".
Proof. reflexivity. Qed.

Example windows_clock :
  System.CpuClockSpeed (Windows windows_host) = 3998000000.
Proof. reflexivity. Qed.

(** ** Machine integers *)

Lemma to_DWORD_small (z : Z) : 0 <= z < 2 ^ 32 -> to_DWORD z = z.
Proof. intros H. unfold to_DWORD, wrap_unsigned. apply Z.mod_small, H. Qed.

Lemma to_int_small (z : Z) : - 2 ^ 31 <= z <= INT_MAX -> to_int z = z.
Proof.
  unfold to_int, wrap_signed, INT_MAX. intros H.
  change (32 - 1) with 31. rewrite Z.mod_small; lia.
Qed.

Lemma to_int64_small (z : Z) : - 2 ^ 63 <= z < 2 ^ 63 -> to_int64 z = z.
Proof.
  unfold to_int64, wrap_signed. intros H.
  change (64 - 1) with 63. rewrite Z.mod_small; lia.
Qed.

Lemma pointer_bits_cases (pw : PointerWidth) :
  pointer_bits pw = 32 \/ pointer_bits pw = 64.
Proof. destruct pw; [left | right]; reflexivity. Qed.

(** ** CountSetBits is the population count *)

Lemma land_pow2 (m k : Z) :
  0 <= k -> Z.land m (2 ^ k) = if Z.testbit m k then 2 ^ k else 0.
Proof.
  intros Hk. apply Z.bits_inj'. intros i Hi.
  rewrite Z.land_spec, Z.pow2_bits_eqb by assumption.
  destruct (Z.eqb_spec k i) as [-> | Hne].
  - destruct (Z.testbit m i); simpl.
    + now rewrite Z.pow2_bits_eqb, Z.eqb_refl.
    + now rewrite Z.bits_0.
  - rewrite andb_false_r.
    destruct (Z.testbit m k).
    + rewrite Z.pow2_bits_eqb by assumption.
      symmetry. now apply Z.eqb_neq.
    + now rewrite Z.bits_0.
Qed.

Lemma land_pow2_test (m k : Z) :
  0 <= k ->
  (if Z.land m (2 ^ k) =? 0 then 0 else 1) = Z.b2z (Z.testbit m k).
Proof.
  intros Hk. rewrite land_pow2 by assumption.
  destruct (Z.testbit m k); simpl.
  - assert (0 < 2 ^ k) by (apply Z.pow_pos_nonneg; lia).
    destruct (Z.eqb_spec (2 ^ k) 0); [lia | reflexivity].
  - reflexivity.
Qed.

Lemma count_bits_range (n : nat) (m : Z) :
  0 <= count_bits n m <= Z.of_nat n.
Proof.
  induction n as [| n IH]; simpl count_bits; [lia |].
  destruct (Z.testbit m (Z.of_nat n)); simpl Z.b2z; lia.
Qed.

Lemma CountSetBits_loop_S (n : nat) (m t c : Z) :
  Internals.CountSetBits_loop (S n) m t c
  = Internals.CountSetBits_loop n m (t / 2)
      (to_DWORD (c + (if Z.land m t =? 0 then 0 else 1))).
Proof. reflexivity. Qed.

(** With [n + 1] turns left and [pBitTest] on bit [n], the loop adds the
    number of set bits among the bits [n .. 0]. *)
Lemma CountSetBits_loop_spec (n : nat) :
  forall (m c : Z),
    0 <= c -> c + Z.of_nat (S n) < 2 ^ 32 ->
    Internals.CountSetBits_loop (S n) m (2 ^ Z.of_nat n) c
    = c + count_bits (S n) m.
Proof.
  induction n as [| n IH]; intros m c Hc Hbound.
  - rewrite CountSetBits_loop_S. cbn [Internals.CountSetBits_loop count_bits].
    rewrite land_pow2_test by lia.
    change (Z.of_nat 0) with 0.
    rewrite to_DWORD_small; [lia |].
    destruct (Z.testbit m 0); simpl Z.b2z; lia.
  - rewrite CountSetBits_loop_S.
    rewrite land_pow2_test by lia.
    replace (2 ^ Z.of_nat (S n) / 2) with (2 ^ Z.of_nat n).
    2:{ rewrite Nat2Z.inj_succ, Z.pow_succ_r by lia.
        rewrite Z.mul_comm, Z.div_mul; [reflexivity | discriminate]. }
    assert (Hb : 0 <= Z.b2z (Z.testbit m (Z.of_nat (S n))) <= 1)
      by (destruct (Z.testbit m (Z.of_nat (S n))); simpl; lia).
    rewrite to_DWORD_small by lia.
    specialize (IH m (c + Z.b2z (Z.testbit m (Z.of_nat (S n))))).
    rewrite IH by lia.
    cbn [count_bits]. lia.
Qed.

Lemma CountSetBits_count_bits (pw : PointerWidth) (m : Z) :
  Internals.CountSetBits pw m = count_bits (Z.to_nat (pointer_bits pw)) m.
Proof.
  unfold Internals.CountSetBits.
  destruct pw.
  - change (Internals.CountSetBits_loop (S 31) m (2 ^ Z.of_nat 31) 0
            = count_bits (S 31) m).
    rewrite CountSetBits_loop_spec; lia.
  - change (Internals.CountSetBits_loop (S 63) m (2 ^ Z.of_nat 63) 0
            = count_bits (S 63) m).
    rewrite CountSetBits_loop_spec; lia.
Qed.

Lemma count_bits_shift (n : nat) (m : Z) :
  count_bits (S n) m = Z.b2z (Z.odd m) + count_bits n (m / 2).
Proof.
  induction n as [| n IH].
  - cbn [count_bits]. change (Z.of_nat 0) with 0.
    rewrite Z.bit0_odd. reflexivity.
  - change (count_bits (S (S n)) m)
      with (Z.b2z (Z.testbit m (Z.of_nat (S n))) + count_bits (S n) m).
    rewrite IH. cbn [count_bits].
    replace (Z.testbit (m / 2) (Z.of_nat n))
      with (Z.testbit m (Z.of_nat (S n))); [lia |].
    rewrite Nat2Z.inj_succ, <- Z.div2_div, Z.div2_spec, Z.shiftr_spec by lia.
    reflexivity.
Qed.

Lemma popcount_shift (m : Z) :
  0 <= m -> popcount m = Z.b2z (Z.odd m) + popcount (m / 2).
Proof.
  intros Hm. rewrite <- Z.div2_div.
  destruct m as [| p | p]; [reflexivity | | lia].
  destruct p; simpl; lia.
Qed.

Lemma popcount_count_bits (n : nat) :
  forall m : Z, 0 <= m < 2 ^ Z.of_nat n -> popcount m = count_bits n m.
Proof.
  induction n as [| n IH]; intros m Hm.
  - simpl in Hm. assert (m = 0) by lia. subst m. reflexivity.
  - rewrite count_bits_shift, popcount_shift by lia.
    f_equal. apply IH.
    rewrite Nat2Z.inj_succ, Z.pow_succ_r in Hm by lia.
    split; [apply Z.div_pos; lia |].
    apply Z.div_lt_upper_bound; lia.
Qed.

Lemma popcount_pos (m : Z) : 0 < m -> 0 < popcount m.
Proof.
  destruct m as [| p | p]; intros H; try lia.
  clear H. unfold popcount.
  induction p as [q IH | q IH |]; cbn [Pos_popcount]; lia.
Qed.

Lemma CountSetBits_is_popcount (pw : PointerWidth) (m : Z) :
  0 <= m < 2 ^ pointer_bits pw ->
  Internals.CountSetBits pw m = popcount m.
Proof.
  intros Hm. rewrite CountSetBits_count_bits.
  symmetry. apply popcount_count_bits.
  rewrite Z2Nat.id; [exact Hm |].
  destruct (pointer_bits_cases pw); lia.
Qed.

Lemma CountSetBits_range (pw : PointerWidth) (m : Z) :
  0 <= Internals.CountSetBits pw m <= pointer_bits pw.
Proof.
  rewrite CountSetBits_count_bits.
  pose proof (count_bits_range (Z.to_nat (pointer_bits pw)) m) as Hr.
  rewrite Z2Nat.id in Hr; [exact Hr |].
  destruct (pointer_bits_cases pw); lia.
Qed.

(** ** CpuTotalCores *)

Lemma wrap_signed_small (pw : PointerWidth) (z : Z) :
  - 2 ^ 31 <= z <= INT_MAX -> wrap_signed (pointer_bits pw) z = z.
Proof.
  unfold wrap_signed, INT_MAX. intros H.
  destruct pw.
  - change (pointer_bits Bits32 - 1) with 31.
    change (pointer_bits Bits32) with 32. rewrite Z.mod_small; lia.
  - change (pointer_bits Bits64 - 1) with 63.
    change (pointer_bits Bits64) with 64. rewrite Z.mod_small; lia.
Qed.

(** The first loop ends as soon as one answer ends it: the function
    returns. *)
Lemma allocate_loop_returns (calls : list GLPI_outcome) :
  existsb ends_allocate_loop calls = true ->
  System.allocate_loop calls <> None.
Proof.
  induction calls as [| answer calls IH]; simpl; [discriminate |].
  destruct answer as [records | last_error malloc_ok]; simpl.
  - discriminate.
  - destruct (last_error =? ERROR_INSUFFICIENT_BUFFER); simpl;
      [| discriminate].
    destruct malloc_ok; simpl; [exact IH | discriminate].
Qed.

Lemma CpuTotalCores_returns (os : OS) :
  match os with
  | Windows w => existsb ends_allocate_loop (GLPI_calls w) = true
  | Unix _ => True
  end ->
  exists cores, System.CpuTotalCores os = Some cores.
Proof.
  destruct os as [w | u]; simpl.
  - intros H. apply allocate_loop_returns in H.
    destruct (System.allocate_loop (GLPI_calls w)) as [[records |] |];
      [eexists; reflexivity | eexists; reflexivity | contradiction].
  - intros _. eexists; reflexivity.
Qed.

Lemma CpuHyperThreading_returns (os : OS) :
  match os with
  | Windows w => existsb ends_allocate_loop (GLPI_calls w) = true
  | Unix _ => True
  end ->
  exists flag, System.CpuHyperThreading os = Some flag.
Proof.
  intros H. destruct (CpuTotalCores_returns os H) as [cores Hcores].
  unfold System.CpuHyperThreading. rewrite Hcores. eexists; reflexivity.
Qed.

Lemma CountSetBits_nonempty (pw : PointerWidth) (m : Z) :
  0 < m < 2 ^ pointer_bits pw ->
  1 <= Internals.CountSetBits pw m <= pointer_bits pw.
Proof.
  intros Hm. split; [| apply CountSetBits_range].
  rewrite CountSetBits_is_popcount by lia.
  pose proof (popcount_pos m). lia.
Qed.

Lemma scan_records_core (pw : PointerWidth) e records result :
  Relationship e = RelationProcessorCore ->
  System.scan_records pw (e :: records) result
  = System.scan_records pw records
      (to_int (to_DWORD (fst result)
               + Internals.CountSetBits pw (ProcessorMask e)),
       to_int (snd result + 1)).
Proof. intros H. cbn [System.scan_records]. rewrite H. reflexivity. Qed.

(** C9. For every bit mask that a [ULONG_PTR] can hold, of either width,
    [Internals::CountSetBits] returns the population count of the mask, the
    number of its set bits; a processor-core record therefore adds all the
    logical processors of its mask to the logical count of
    [System::CpuTotalCores], and one to the physical count. *)
Theorem CountSetBits_popcount (pw : PointerWidth) (pBitMask : Z) :
  0 <= pBitMask < 2 ^ pointer_bits pw ->
  Internals.CountSetBits pw pBitMask = popcount pBitMask /\
  forall records logical physical,
    0 <= logical <= INT_MAX - pointer_bits pw ->
    0 <= physical < INT_MAX ->
    System.scan_records pw (core pBitMask :: records) (logical, physical)
    = System.scan_records pw records
        (logical + popcount pBitMask, physical + 1).
Proof.
  intros Hm. split; [apply CountSetBits_is_popcount, Hm |].
  intros records logical physical Hlogical Hphysical.
  rewrite scan_records_core by reflexivity.
  cbn [fst snd ProcessorMask core].
  pose proof (CountSetBits_range pw pBitMask) as Hbits.
  rewrite <- (CountSetBits_is_popcount pw) by exact Hm.
  unfold INT_MAX in *.
  rewrite (to_DWORD_small logical) by lia.
  rewrite !to_int_small by (unfold INT_MAX; lia).
  reflexivity.
Qed.

Lemma CountSetBits_popcount_witness :
  Internals.CountSetBits Bits64 255 = popcount 255 /\
  System.scan_records Bits64 [core 255] (8, 1) = (16, 2).
Proof.
  assert (Hm : 0 <= 255 < 2 ^ pointer_bits Bits64)
    by (vm_compute; split; congruence).
  split.
  - apply (proj1 (CountSetBits_popcount Bits64 255 Hm)).
  - apply (proj2 (CountSetBits_popcount Bits64 255 Hm) [] 8 1);
      vm_compute; split; congruence.
Defined.

Lemma scan_records_unsupported (pw : PointerWidth) e records result :
  unsupported_relationship (Relationship e) = true ->
  System.scan_records pw (e :: records) result = (-1, -1).
Proof.
  unfold unsupported_relationship. intros H.
  apply negb_true_iff in H.
  repeat (apply orb_false_iff in H; destruct H as [H ?]).
  cbn [System.scan_records].
  rewrite H. cbn [orb].
  replace (Relationship e =? RelationNumaNode) with false by congruence.
  replace (Relationship e =? RelationCache) with false by congruence.
  replace (Relationship e =? RelationProcessorPackage) with false
    by congruence.
  reflexivity.
Qed.

(** Every other record is skipped or counted, and the scan goes on. *)
Lemma scan_records_supported (pw : PointerWidth) e records result :
  unsupported_relationship (Relationship e) = false ->
  exists result',
    System.scan_records pw (e :: records) result
    = System.scan_records pw records result'.
Proof.
  unfold unsupported_relationship. intros H.
  apply negb_false_iff in H.
  cbn [System.scan_records].
  destruct (Relationship e =? RelationProcessorCore).
  - eexists; reflexivity.
  - cbn [orb] in H. rewrite H. eexists; reflexivity.
Qed.

Lemma scan_records_ordered (pw : PointerWidth) records :
  forall a b : Z,
    forallb (core_mask_nonempty pw) records = true ->
    0 <= b <= a ->
    a + Z.of_nat (List.length records) * pointer_bits pw <= INT_MAX ->
    let cores := System.scan_records pw records (a, b) in
    0 <= snd cores <= fst cores \/ cores = (-1, -1).
Proof.
  induction records as [| e records IH]; intros a b Hmasks Hab Hlen.
  - left. exact Hab.
  - cbn [forallb] in Hmasks. apply andb_true_iff in Hmasks.
    destruct Hmasks as [He Hmasks].
    assert (Hw : 32 <= pointer_bits pw)
      by (destruct (pointer_bits_cases pw); lia).
    cbn [List.length] in Hlen. rewrite Nat2Z.inj_succ in Hlen.
    destruct (unsupported_relationship (Relationship e)) eqn:Hu.
    + right. apply scan_records_unsupported, Hu.
    + destruct (Z.eqb_spec (Relationship e) RelationProcessorCore)
        as [Hcore | Hother].
      * unfold core_mask_nonempty in He.
        rewrite Hcore, Z.eqb_refl in He. cbn [implb] in He.
        apply andb_true_iff in He. destruct He as [Hlo Hhi].
        apply Z.ltb_lt in Hlo. apply Z.ltb_lt in Hhi.
        pose proof (CountSetBits_nonempty pw (ProcessorMask e)
                      (conj Hlo Hhi)) as Hbits.
        unfold INT_MAX in Hlen.
        cbv zeta. rewrite scan_records_core by exact Hcore.
        cbn [fst snd].
        rewrite (to_DWORD_small a) by lia.
        rewrite !to_int_small by (unfold INT_MAX; lia).
        apply IH; [exact Hmasks | lia | unfold INT_MAX; lia].
      * cbv zeta. cbn [System.scan_records].
        apply Z.eqb_neq in Hother. rewrite Hother.
        unfold unsupported_relationship in Hu.
        apply negb_false_iff in Hu. rewrite Hother in Hu.
        cbn [orb] in Hu. rewrite Hu.
        apply IH; [exact Hmasks | exact Hab | lia].
Qed.

(** C2, as amended. Whenever the processor topology the OS reports is
    plausible (on Windows every processor-core record has at least one bit
    set in its mask and the records are few enough for the counts to fit
    [int]; on Unix [sysconf] returns -1 or a count that fits [int]), a
    result of [System::CpuTotalCores] has logical >= physical >= 0 or is
    the pair (-1, -1). *)
Theorem CpuTotalCores_ordered_or_failed (os : OS) (cores : Z * Z) :
  plausible_topology os = true ->
  System.CpuTotalCores os = Some cores ->
  0 <= snd cores <= fst cores \/ cores = (-1, -1).
Proof.
  destruct os as [w | u]; cbn [plausible_topology System.CpuTotalCores].
  - destruct (System.allocate_loop (GLPI_calls w)) as [[records |] |];
      intros Hok Hcores; inversion Hcores; subst cores; clear Hcores.
    + unfold plausible_records in Hok. apply andb_true_iff in Hok.
      destruct Hok as [Hmasks Hlen]. apply Z.leb_le in Hlen.
      apply scan_records_ordered; [exact Hmasks | lia | lia].
    + right. reflexivity.
  - intros Hok Hcores. apply andb_true_iff in Hok.
    destruct Hok as [Hlo Hhi]. apply Z.leb_le in Hlo. apply Z.leb_le in Hhi.
    rewrite wrap_signed_small in Hcores by lia.
    rewrite to_int_small in Hcores by lia.
    inversion Hcores; subst cores; clear Hcores. cbn [fst snd].
    destruct (Z.eq_dec (sysconf_NPROCESSORS_ONLN u) (-1)) as [-> | Hne].
    + right. reflexivity.
    + left. lia.
Qed.

Lemma CpuTotalCores_ordered_or_failed_witness :
  plausible_topology (Windows windows_host) = true /\
  System.CpuTotalCores (Windows windows_host) = Some (8, 4) /\
  (0 <= snd (8, 4) <= fst (8, 4) \/ (8, 4) = (-1, -1)).
Proof.
  split; [reflexivity |]. split; [reflexivity |].
  apply (CpuTotalCores_ordered_or_failed (Windows windows_host) (8, 4));
    reflexivity.
Defined.

(** C2, as stated, fails on a processor-core record whose mask is empty:
    the record counts as a physical core and adds no logical one. *)
Lemma CpuTotalCores_empty_mask_counterexample :
  System.CpuTotalCores
    (Windows (with_GLPI_calls (two_calls [core 0]) windows_host))
  = Some (0, 1) /\
  ~ (forall os cores,
        System.CpuTotalCores os = Some cores ->
        0 <= snd cores <= fst cores \/ cores = (-1, -1)).
Proof.
  split; [reflexivity |].
  intros H.
  destruct (H (Windows (with_GLPI_calls (two_calls [core 0]) windows_host))
              (0, 1) eq_refl) as [[_ Hle] | Heq].
  - cbn [fst snd] in Hle. lia.
  - discriminate Heq.
Qed.

(** One unsupported record anywhere in the buffer makes the scan return
    the failure pair, from any intermediate counts. *)
Lemma scan_records_fails (pw : PointerWidth) records :
  existsb (fun e => unsupported_relationship (Relationship e)) records
  = true ->
  forall result, System.scan_records pw records result = (-1, -1).
Proof.
  induction records as [| e records IH]; intros Hex result;
    [discriminate Hex |].
  cbn [existsb] in Hex.
  destruct (unsupported_relationship (Relationship e)) eqn:Hu.
  - apply scan_records_unsupported, Hu.
  - destruct (scan_records_supported pw e records result Hu)
      as [result' ->].
    apply IH. exact Hex.
Qed.

(** C4. On Windows, when the buffer that [GetLogicalProcessorInformation]
    fills holds a record whose relationship tag is none of processor-core,
    NUMA-node, cache and package, [System::CpuTotalCores] returns
    (-1, -1), wherever the record stands and whatever was counted before
    it. *)
Theorem CpuTotalCores_unsupported_relationship
        (w : WindowsOS) (records : list SYSTEM_LOGICAL_PROCESSOR_INFORMATION) :
  System.allocate_loop (GLPI_calls w) = Some (Some records) ->
  existsb (fun e => unsupported_relationship (Relationship e)) records
  = true ->
  System.CpuTotalCores (Windows w) = Some (-1, -1).
Proof.
  intros Hloop Hex. cbn [System.CpuTotalCores]. rewrite Hloop. f_equal.
  apply scan_records_fails, Hex.
Qed.

Lemma CpuTotalCores_unsupported_relationship_witness :
  let records := [core 3; core 12; other_record 15 4; core 48] in
  let w := with_GLPI_calls (two_calls records) windows_host in
  System.CpuTotalCores (Windows w) = Some (-1, -1).
Proof.
  apply (CpuTotalCores_unsupported_relationship
           (with_GLPI_calls
              (two_calls [core 3; core 12; other_record 15 4; core 48])
              windows_host)
           [core 3; core 12; other_record 15 4; core 48]);
    reflexivity.
Defined.

(** C7. On Unix, [System::CpuTotalCores] always returns, and returns the
    same number as the logical and as the physical count; that number is
    what [sysconf(_SC_NPROCESSORS_ONLN)] reports, the count of the
    processors currently online, whenever that fits [int]. *)
Theorem CpuTotalCores_unix (u : UnixOS) :
  (exists processors,
      System.CpuTotalCores (Unix u) = Some (processors, processors)) /\
  (- 2 ^ 31 <= sysconf_NPROCESSORS_ONLN u <= INT_MAX ->
   System.CpuTotalCores (Unix u)
   = Some (sysconf_NPROCESSORS_ONLN u, sysconf_NPROCESSORS_ONLN u)).
Proof.
  split.
  - eexists. reflexivity.
  - intros Hrange. cbn [System.CpuTotalCores].
    rewrite wrap_signed_small by exact Hrange.
    rewrite to_int_small by exact Hrange. reflexivity.
Qed.

Lemma CpuTotalCores_unix_witness :
  System.CpuTotalCores (Unix unix_host) = Some (8, 8).
Proof.
  apply (proj2 (CpuTotalCores_unix unix_host)).
  vm_compute. split; congruence.
Defined.

(** C3. Whatever pair [System::CpuTotalCores] returns,
    [System::CpuHyperThreading] returns true exactly when its two
    components differ, and false when they are equal, equal positive counts
    included. *)
Theorem CpuHyperThreading_iff_counts_differ (os : OS) (cores : Z * Z) :
  System.CpuTotalCores os = Some cores ->
  (System.CpuHyperThreading os = Some true <-> fst cores <> snd cores) /\
  (fst cores = snd cores -> System.CpuHyperThreading os = Some false).
Proof.
  intros Hcores. unfold System.CpuHyperThreading. rewrite Hcores.
  destruct (Z.eqb_spec (fst cores) (snd cores)) as [Heq | Hne]; cbn [negb].
  - split; [| reflexivity].
    split; [discriminate | intros H; contradiction].
  - split; [| intros H; contradiction].
    split; [intros _; exact Hne | reflexivity].
Qed.

Lemma CpuHyperThreading_iff_counts_differ_witness :
  System.CpuHyperThreading (Windows windows_host) = Some true /\
  System.CpuHyperThreading (Unix unix_host) = Some false.
Proof.
  split.
  - apply (proj1 (CpuHyperThreading_iff_counts_differ
                    (Windows windows_host) (8, 4) eq_refl)).
    cbn [fst snd]. discriminate.
  - apply (proj2 (CpuHyperThreading_iff_counts_differ
                    (Unix unix_host) (8, 8) eq_refl)).
    reflexivity.
Defined.

(** C10. When [System::CpuTotalCores] fails with the pair (-1, -1),
    [System::CpuHyperThreading] returns false, the answer it also gives on
    a host with one core and one hardware thread: the flag alone does not
    tell the two apart. *)
Theorem CpuHyperThreading_false_on_failure (os : OS) :
  System.CpuTotalCores os = Some (-1, -1) ->
  System.CpuHyperThreading os = Some false /\
  exists single_core,
    System.CpuTotalCores single_core = Some (1, 1) /\
    System.CpuHyperThreading single_core = System.CpuHyperThreading os.
Proof.
  intros Hfail.
  assert (Hflag : System.CpuHyperThreading os = Some false)
    by (unfold System.CpuHyperThreading; rewrite Hfail; reflexivity).
  split; [exact Hflag |].
  exists (Windows (with_GLPI_calls (two_calls [core 1]) windows_host)).
  rewrite Hflag. split; reflexivity.
Qed.

Lemma CpuHyperThreading_false_on_failure_witness :
  let failed :=
    Windows (with_GLPI_calls [GLPI_FALSE 1 false] windows_host) in
  System.CpuTotalCores failed = Some (-1, -1) /\
  System.CpuHyperThreading failed = Some false.
Proof.
  split; [reflexivity |].
  apply (CpuHyperThreading_false_on_failure
           (Windows (with_GLPI_calls [GLPI_FALSE 1 false] windows_host))).
  reflexivity.
Defined.

(** ** The two patterns *)

Lemma strip_literal_spec (lit s rest : string) :
  strip_literal lit s = Some rest <-> s = lit ++ rest.
Proof.
  revert s. induction lit as [| c lit IH]; intros s; simpl.
  - split; [intros H; now inversion H | intros ->; reflexivity].
  - destruct s as [| d s].
    + split; discriminate.
    + destruct (Ascii.eqb_spec c d) as [-> | Hne].
      * rewrite IH. split; [intros ->; reflexivity | intros H; now inversion H].
      * split; [discriminate | intros H; inversion H; congruence].
Qed.

Lemma skip_spaces_split (s : string) :
  exists spaces,
    all_chars isspace spaces = true /\ s = spaces ++ skip_spaces s.
Proof.
  induction s as [| c s [spaces [Hall Heq]]]; simpl.
  - exists EmptyString. split; reflexivity.
  - destruct (isspace c) eqn:Hc.
    + exists (String c spaces). simpl. rewrite Hc, Hall.
      split; [reflexivity | now rewrite <- Heq].
    + exists EmptyString. split; reflexivity.
Qed.

Lemma skip_spaces_append (spaces rest : string) :
  all_chars isspace spaces = true ->
  skip_spaces (spaces ++ rest) = skip_spaces rest.
Proof.
  induction spaces as [| c spaces IH]; simpl; [reflexivity |].
  intros H. apply andb_true_iff in H. destruct H as [Hc Hall].
  rewrite Hc. apply IH, Hall.
Qed.

Lemma append_assoc (a b c : string) : (a ++ b) ++ c = a ++ b ++ c.
Proof. induction a as [| x a IH]; simpl; [reflexivity | now rewrite IH]. Qed.

(** The matcher computes the decomposition that the pattern describes. *)
Lemma regex_match_field_spec (label text group : string) :
  regex_match_field label text = Some group
  <-> field_pattern_matches label text group.
Proof.
  unfold regex_match_field, field_pattern_matches. split.
  - destruct (strip_literal label text) as [after_label |] eqn:Hlabel;
      [| discriminate].
    destruct (strip_literal ": " (skip_spaces after_label))
      as [g |] eqn:Hcolon; [| discriminate].
    destruct (all_chars any_char g) eqn:Hany; [| discriminate].
    intros H. inversion H; subst g; clear H.
    apply strip_literal_spec in Hlabel. apply strip_literal_spec in Hcolon.
    destruct (skip_spaces_split after_label) as [spaces [Hall Heq]].
    exists spaces. split; [exact Hall |]. split; [exact Hany |].
    rewrite Hlabel, Heq, Hcolon. reflexivity.
  - intros [spaces [Hall [Hany ->]]].
    assert (Hlabel : strip_literal label (label ++ spaces ++ ": " ++ group)
                     = Some (spaces ++ ": " ++ group))
      by (apply strip_literal_spec; reflexivity).
    rewrite Hlabel, skip_spaces_append by exact Hall.
    simpl. rewrite Hany. reflexivity.
Qed.

Lemma matches_literal (lit s : string) :
  matches (literal lit) s <-> s = lit.
Proof.
  revert s. induction lit as [| c lit IH]; intros s; simpl.
  - split; [intros H; now inversion H | intros ->; constructor].
  - split.
    + intros H. inversion H as [| | | r1 r2 s1 s2 H1 H2 | |]; subst.
      inversion H1; subst. apply IH in H2. subst. reflexivity.
    + intros ->.
      apply (matches_Seq (Chr c) (literal lit) (String c EmptyString) lit);
        [constructor | now apply IH].
Qed.

Lemma matches_Star_Class (p : ascii -> bool) (s : string) :
  matches (Star (Class p)) s <-> all_chars p s = true.
Proof.
  split.
  - intros H. remember (Star (Class p)) as r eqn:Hr.
    induction H as [| | | | r | r s1 s2 H1 _ H2 IH2]; try discriminate Hr.
    + reflexivity.
    + inversion Hr; subst r. inversion H1; subst.
      simpl. rewrite IH2 by reflexivity.
      now rewrite andb_true_r.
  - induction s as [| c s IH]; simpl; intros H; [constructor |].
    apply andb_true_iff in H. destruct H as [Hc Hall].
    apply (matches_Star_cons (Class p) (String c EmptyString) s);
      [now constructor | now apply IH].
Qed.

(** A whole text matches the pattern exactly when the matcher returns a
    group. *)
Lemma regex_match_field_matches (label text : string) :
  matches (field_regex label) text
  <-> exists group, regex_match_field label text = Some group.
Proof.
  unfold field_regex. split.
  - intros H.
    inversion H as [| | | ? ? l rest1 Hl H1 | |]; subst.
    inversion H1 as [| | | ? ? spaces rest2 Hs H2 | |]; subst.
    inversion H2 as [| | | ? ? colon group Hc Hg | |]; subst.
    apply matches_literal in Hl. apply (matches_literal ": ") in Hc. subst.
    apply matches_Star_Class in Hs. apply matches_Star_Class in Hg.
    exists group. apply regex_match_field_spec.
    exists spaces. repeat split; assumption.
  - intros [group H]. apply regex_match_field_spec in H.
    destruct H as [spaces [Hs [Hg ->]]].
    repeat apply matches_Seq;
      try (apply matches_literal; reflexivity);
      apply matches_Star_Class; assumption.
Qed.

Lemma last_char_cons (x : ascii) (s : string) :
  exists c, last_char (String x s) = Some c.
Proof.
  revert x. induction s as [| y s IH]; intros x.
  - exists x. reflexivity.
  - destruct (IH y) as [c Hc]. exists c. exact Hc.
Qed.

Lemma last_char_append (a b : string) :
  last_char (a ++ b)
  = match last_char b with Some c => Some c | None => last_char a end.
Proof.
  induction a as [| x a IH].
  - simpl. destruct (last_char b); reflexivity.
  - destruct a as [| y a].
    + destruct b as [| z b]; [reflexivity |].
      destruct (last_char_cons z b) as [c Hc].
      transitivity (last_char (String z b)); [reflexivity |].
      rewrite Hc. reflexivity.
    + transitivity (last_char (String y a ++ b)); [reflexivity |].
      rewrite IH. reflexivity.
Qed.

Lemma last_char_all_chars (p : ascii -> bool) (s : string) (c : ascii) :
  all_chars p s = true -> last_char s = Some c -> p c = true.
Proof.
  induction s as [| x s IH]; simpl; [discriminate |].
  intros H. apply andb_true_iff in H. destruct H as [Hx Hall].
  destruct s; [intros Hc; inversion Hc; subst; exact Hx |].
  apply IH, Hall.
Qed.

(** A text that ends with a line feed matches neither pattern: the group of
    wildcards has to reach the end and takes no line terminator. *)
Lemma regex_match_field_trailing_newline (label text : string) :
  last_char text = Some LF -> regex_match_field label text = None.
Proof.
  intros Hlast.
  destruct (regex_match_field label text) as [group |] eqn:Hm;
    [| reflexivity].
  apply regex_match_field_spec in Hm.
  destruct Hm as [spaces [_ [Hany ->]]].
  rewrite !last_char_append in Hlast.
  destruct (last_char group) as [c |] eqn:Hg.
  - inversion Hlast; subst c.
    apply (last_char_all_chars any_char) in Hg; [discriminate Hg | exact Hany].
  - simpl in Hlast. discriminate Hlast.
Qed.

Lemma CpuArchitecture_unix_trailing_newline (u : UnixOS) (text : string) :
  proc_cpuinfo u = Some text ->
  last_char text = Some LF ->
  System.CpuArchitecture (Unix u) = System.unknown /\
  System.CpuClockSpeed (Unix u) = -1.
Proof.
  intros Hfile Hlast.
  cbn [System.CpuArchitecture System.CpuClockSpeed].
  rewrite Hfile. cbn [read_all].
  rewrite !regex_match_field_trailing_newline by exact Hlast.
  split; reflexivity.
Qed.

(** An unreadable file, or a text the pattern does not match, gives the
    sentinel. *)
Lemma CpuArchitecture_unix_unknown (u : UnixOS) :
  proc_cpuinfo u = None \/
  regex_match_field "model name" (read_all (proc_cpuinfo u)) = None ->
  System.CpuArchitecture (Unix u) = "<unknown>".
Proof.
  cbn [System.CpuArchitecture].
  intros [Hnone | Hnomatch].
  - rewrite Hnone. reflexivity.
  - rewrite Hnomatch. reflexivity.
Qed.

(** ** CpuArchitecture *)

Lemma until_NUL_empty (data : string) :
  until_NUL data = EmptyString
  <-> data = EmptyString \/ exists rest, data = String NUL rest.
Proof.
  destruct data as [| c data]; simpl.
  - split; [intros _; left; reflexivity | reflexivity].
  - destruct (Ascii.eqb_spec c NUL) as [-> | Hne].
    + split; [intros _; right; eexists; reflexivity | reflexivity].
    + split; [discriminate |].
      intros [H | [rest H]]; [discriminate H |].
      inversion H; contradiction.
Qed.

(** C5, on the code. The sample [/proc/cpuinfo] has a "model name" line,
    and [System::CpuArchitecture] returns the sentinel on it: the pattern is
    matched against the whole text, not searched line by line. The same line
    alone, without its line feed, is matched. *)
Theorem CpuArchitecture_unix_misses_model_name_line :
  has_line (field "model name" "Intel(R) Core(TM) i7-4790K CPU @ 4.00GHz")
           cpuinfo_sample /\
  System.CpuArchitecture (Unix unix_host) = "<unknown>" /\
  System.CpuArchitecture
    (Unix (with_cpuinfo
             (Some (field "model name"
                          "Intel(R) Core(TM) i7-4790K CPU @ 4.00GHz"))
             unix_host))
  = "Intel(R) Core(TM) i7-4790K CPU @ 4.00GHz".
Proof.
  split; [| split; reflexivity].
  exists (line (field "processor" "0")
          ++ line (field "vendor_id" "GenuineIntel")
          ++ line (field "cpu family" "6")
          ++ line (field "model" "60")),
         (line (field "stepping" "3") ++ line (field "cpu MHz" "3998.000")).
  split; [reflexivity | right; reflexivity].
Qed.

(** C6, as amended. [System::CpuArchitecture] returns the empty string
    exactly when the lookup succeeds and the description the OS hands over
    is itself empty; in every other state of the source the result is a
    non-empty string. *)
Theorem CpuArchitecture_empty_iff (os : OS) :
  System.CpuArchitecture os = EmptyString <-> empty_descriptor os.
Proof.
  destruct os as [w | u]; cbn [System.CpuArchitecture empty_descriptor].
  - destruct (Z.eqb_spec (RegOpenKeyEx_result w) ERROR_SUCCESS)
      as [Hopen | Hopen]; cbn [negb].
    + destruct (Z.eqb_spec (ProcessorNameString_result w) ERROR_SUCCESS)
        as [Hquery | Hquery]; cbn [negb].
      * rewrite until_NUL_empty. tauto.
      * split; [discriminate | tauto].
    + split; [discriminate | tauto].
  - destruct (regex_match_field "model name" (read_all (proc_cpuinfo u)))
      as [group |] eqn:Hm.
    + split.
      * intros ->. apply regex_match_field_spec, Hm.
      * intros H. apply regex_match_field_spec in H.
        rewrite H in Hm. now inversion Hm.
    + split; [discriminate |].
      intros H. apply regex_match_field_spec in H. congruence.
Qed.

Lemma CpuArchitecture_empty_iff_witness :
  empty_descriptor (Unix (with_cpuinfo (Some "model name: ") unix_host)).
Proof.
  apply (proj1 (CpuArchitecture_empty_iff
                  (Unix (with_cpuinfo (Some "model name: ") unix_host)))).
  reflexivity.
Defined.

(** C6, as stated, fails: a description that is present and empty is
    returned as it is. *)
Lemma CpuArchitecture_empty_counterexample :
  System.CpuArchitecture
    (Unix (with_cpuinfo (Some "model name: ") unix_host)) = EmptyString /\
  System.CpuArchitecture
    (Windows (with_ProcessorNameString EmptyString windows_host))
  = EmptyString.
Proof. split; reflexivity. Qed.

(** ** CpuClockSpeed *)

Lemma CpuClockSpeed_windows_failure (w : WindowsOS) :
  RegOpenKeyEx_result w <> ERROR_SUCCESS \/ MHz_result w <> ERROR_SUCCESS ->
  System.CpuClockSpeed (Windows w) = -1.
Proof.
  cbn [System.CpuClockSpeed].
  destruct (Z.eqb_spec (RegOpenKeyEx_result w) ERROR_SUCCESS); cbn [negb];
    [| reflexivity].
  destruct (Z.eqb_spec (MHz_result w) ERROR_SUCCESS); cbn [negb];
    [| reflexivity].
  tauto.
Qed.

(** On Windows the product is formed in 32 bits: it is the frequency in Hz
    as long as that stays below 2^32, that is up to 4294 MHz. *)
Lemma CpuClockSpeed_windows_Hz (w : WindowsOS) :
  RegOpenKeyEx_result w = ERROR_SUCCESS ->
  MHz_result w = ERROR_SUCCESS ->
  0 <= MHz_data w <= 4294 ->
  System.CpuClockSpeed (Windows w) = MHz_data w * 1000000.
Proof.
  intros Hopen Hquery Hrange. cbn [System.CpuClockSpeed].
  rewrite Hopen, Hquery. cbn [Z.eqb negb ERROR_SUCCESS].
  rewrite (to_DWORD_small (MHz_data w)) by lia.
  rewrite (to_DWORD_small (MHz_data w * 1000)) by lia.
  rewrite to_DWORD_small by lia.
  rewrite to_int64_small by lia. lia.
Qed.

(** On Unix no product is formed at all: the result is the sentinel or what
    [atoi] reads. *)
Lemma CpuClockSpeed_unix (u : UnixOS) :
  System.CpuClockSpeed (Unix u) = -1 \/
  exists group,
    field_pattern_matches "cpu MHz" (read_all (proc_cpuinfo u)) group /\
    System.CpuClockSpeed (Unix u) = atoi (until_NUL group).
Proof.
  cbn [System.CpuClockSpeed].
  destruct (regex_match_field "cpu MHz" (read_all (proc_cpuinfo u)))
    as [group |] eqn:Hm.
  - right. exists group. split; [apply regex_match_field_spec, Hm |].
    reflexivity.
  - left. reflexivity.
Qed.

(** C1, on the code. On Unix a descriptor of 2400 MHz gives 2400, not
    2,400,000,000, and a value that is no number gives 0, not -1; on
    Windows 4500 MHz gives 4,500,000,000 reduced modulo 2^32. *)
Theorem CpuClockSpeed_not_Hz :
  System.CpuClockSpeed
    (Unix (with_cpuinfo (Some (field "cpu MHz" "2400.000")) unix_host))
  = 2400 /\
  System.CpuClockSpeed
    (Unix (with_cpuinfo (Some (field "cpu MHz" "unknown")) unix_host))
  = 0 /\
  System.CpuClockSpeed (Windows (with_MHz 4500 windows_host))
  = 4500 * 1000000 - 2 ^ 32.
Proof. repeat split. Qed.

(** ** RamTotal and RamFree *)

Lemma Ram_windows_unchecked (w : WindowsOS) :
  GlobalMemoryStatusEx_result w = None ->
  System.RamTotal (Windows w)
  = to_int64 (wrap_unsigned 64 (ullTotalPhys (status_uninitialised w))) /\
  System.RamFree (Windows w)
  = to_int64 (wrap_unsigned 64 (ullAvailPhys (status_uninitialised w))).
Proof.
  intros Hfail. cbn [System.RamTotal System.RamFree].
  unfold System.memory_status. rewrite Hfail. split; reflexivity.
Qed.

Lemma Ram_unix_failure_LP64 (u : UnixOS) :
  unix_pointer u = Bits64 ->
  sysinfo_result u <> 0 ->
  System.RamTotal (Unix u) = -1 /\ System.RamFree (Unix u) = -1.
Proof.
  intros Hpw Hfail. cbn [System.RamTotal System.RamFree].
  apply Z.eqb_neq in Hfail. rewrite Hfail, Hpw. split; reflexivity.
Qed.

(** On Unix, a successful [sysinfo] gives the two fields of the structure,
    unchanged when they fit [unsigned long] and [int64_t]. *)
Lemma Ram_unix_success (u : UnixOS) :
  sysinfo_result u = 0 ->
  0 <= totalram (sysinfo_si u) < 2 ^ (pointer_bits (unix_pointer u) - 1) ->
  0 <= freeram (sysinfo_si u) < 2 ^ (pointer_bits (unix_pointer u) - 1) ->
  System.RamTotal (Unix u) = totalram (sysinfo_si u) /\
  System.RamFree (Unix u) = freeram (sysinfo_si u).
Proof.
  intros Hok Htotal Hfree. cbn [System.RamTotal System.RamFree].
  rewrite Hok. cbn [Z.eqb]. unfold wrap_unsigned.
  assert (Hpow : 2 * 2 ^ (pointer_bits (unix_pointer u) - 1)
                 = 2 ^ pointer_bits (unix_pointer u)
                 /\ 2 ^ (pointer_bits (unix_pointer u) - 1) <= 2 ^ 63)
    by (destruct (unix_pointer u); vm_compute; split; congruence).
  rewrite !Z.mod_small by lia.
  rewrite !to_int64_small by lia. split; reflexivity.
Qed.

(** C8, on the code. On Windows, when [GlobalMemoryStatusEx] fails, the two
    queries return what the uninitialised structure happens to hold, not
    -1; on Unix with a 32-bit [long], a failing [sysinfo] gives 4294967295,
    the -1 of the conditional brought to [unsigned long]. *)
Theorem Ram_failure_not_reported :
  let failing := Windows (with_GlobalMemoryStatusEx None windows_host) in
  System.RamTotal failing = 140726000000000 /\
  System.RamFree failing = 4199040 /\
  System.RamTotal (Unix (with_sysinfo_failing Bits32 unix_host))
  = 4294967295 /\
  System.RamTotal (Unix (with_sysinfo_failing Bits64 unix_host)) = -1.
Proof. repeat split. Qed.

(** * Further properties *)

(** ** CountSetBits *)

Lemma count_bits_ext (n : nat) (a b : Z) :
  (forall k, 0 <= k < Z.of_nat n -> Z.testbit a k = Z.testbit b k) ->
  count_bits n a = count_bits n b.
Proof.
  induction n as [| n IH]; intros Hbits; [reflexivity |].
  cbn [count_bits]. rewrite (Hbits (Z.of_nat n)) by lia.
  rewrite IH; [reflexivity |]. intros k Hk. apply Hbits. lia.
Qed.

Lemma count_bits_disjoint (n : nat) (a b : Z) :
  Z.land a b = 0 ->
  count_bits n (Z.lor a b) = count_bits n a + count_bits n b.
Proof.
  intros Hdisjoint. induction n as [| n IH]; [reflexivity |].
  cbn [count_bits]. rewrite IH, Z.lor_spec.
  assert (Hk : Z.testbit a (Z.of_nat n) && Z.testbit b (Z.of_nat n) = false)
    by (rewrite <- Z.land_spec, Hdisjoint; apply Z.bits_0).
  destruct (Z.testbit a (Z.of_nat n)), (Z.testbit b (Z.of_nat n));
    try discriminate Hk; cbn [orb Z.b2z]; lia.
Qed.

Lemma count_bits_pow2 (n : nat) (k : Z) :
  0 <= k ->
  count_bits n (2 ^ k) = if k <? Z.of_nat n then 1 else 0.
Proof.
  intros Hk. induction n as [| n IH].
  - cbn [count_bits]. destruct (Z.ltb_spec k (Z.of_nat 0)); [lia | reflexivity].
  - cbn [count_bits]. rewrite IH, Z.pow2_bits_eqb by exact Hk.
    destruct (Z.eqb_spec k (Z.of_nat n)) as [Heq | Hne];
      destruct (Z.ltb_spec k (Z.of_nat n));
      destruct (Z.ltb_spec k (Z.of_nat (S n))); cbn [Z.b2z]; lia.
Qed.

Lemma pointer_bits_nat (pw : PointerWidth) :
  Z.of_nat (Z.to_nat (pointer_bits pw)) = pointer_bits pw.
Proof. destruct pw; reflexivity. Qed.

(** X1. For every integer, in the range of [ULONG_PTR] or not,
    [CountSetBits] returns a count between 0 and the width of [ULONG_PTR],
    and only the bits below that width are counted. *)
Theorem CountSetBits_low_bits (pw : PointerWidth) (pBitMask : Z) :
  0 <= Internals.CountSetBits pw pBitMask <= pointer_bits pw /\
  Internals.CountSetBits pw pBitMask
  = Internals.CountSetBits pw (pBitMask mod 2 ^ pointer_bits pw).
Proof.
  split.
  - rewrite CountSetBits_count_bits.
    pose proof (count_bits_range (Z.to_nat (pointer_bits pw)) pBitMask) as H.
    rewrite pointer_bits_nat in H. exact H.
  - rewrite !CountSetBits_count_bits. apply count_bits_ext.
    intros k Hk. rewrite pointer_bits_nat in Hk.
    symmetry. apply Z.mod_pow2_bits_low. lia.
Qed.

(** X2. [CountSetBits] returns 0 for the empty mask only. *)
Theorem CountSetBits_zero_iff (pw : PointerWidth) (pBitMask : Z) :
  0 <= pBitMask < 2 ^ pointer_bits pw ->
  (Internals.CountSetBits pw pBitMask = 0 <-> pBitMask = 0).
Proof.
  intros Hm. split.
  - intros Hzero. rewrite CountSetBits_is_popcount in Hzero by exact Hm.
    destruct (Z.eq_dec pBitMask 0) as [Heq | Hne]; [exact Heq |].
    pose proof (popcount_pos pBitMask). lia.
  - intros ->. destruct pw; reflexivity.
Qed.

Lemma CountSetBits_zero_iff_witness :
  Internals.CountSetBits Bits32 0 = 0.
Proof.
  apply (proj2 (CountSetBits_zero_iff Bits32 0
                  ltac:(vm_compute; split; congruence))).
  reflexivity.
Defined.

(** X3. The count is additive on masks that share no bit: the siblings of
    two cores, taken together, are counted once each. *)
Theorem CountSetBits_disjoint (pw : PointerWidth) (mask1 mask2 : Z) :
  Z.land mask1 mask2 = 0 ->
  Internals.CountSetBits pw (Z.lor mask1 mask2)
  = Internals.CountSetBits pw mask1 + Internals.CountSetBits pw mask2.
Proof.
  intros Hdisjoint. rewrite !CountSetBits_count_bits.
  apply count_bits_disjoint, Hdisjoint.
Qed.

Lemma CountSetBits_disjoint_witness :
  Internals.CountSetBits Bits64 (Z.lor 3 12)
  = Internals.CountSetBits Bits64 3 + Internals.CountSetBits Bits64 12.
Proof. apply (CountSetBits_disjoint Bits64 3 12). reflexivity. Defined.

(** X4. A mask with the single bit [k] set, [k] below the width of
    [ULONG_PTR], counts as one logical processor, the top bit included. *)
Theorem CountSetBits_single_bit (pw : PointerWidth) (k : Z) :
  0 <= k < pointer_bits pw ->
  Internals.CountSetBits pw (2 ^ k) = 1.
Proof.
  intros Hk. rewrite CountSetBits_count_bits, count_bits_pow2 by lia.
  rewrite pointer_bits_nat.
  destruct (Z.ltb_spec k (pointer_bits pw)); [reflexivity | lia].
Qed.

Lemma CountSetBits_single_bit_witness :
  Internals.CountSetBits Bits64 (2 ^ 63) = 1.
Proof.
  apply (CountSetBits_single_bit Bits64 63). vm_compute. split; congruence.
Defined.

(** ** CpuTotalCores on Windows: the scan of the buffer *)

Lemma to_int_congruent (x y : Z) :
  x mod 2 ^ 32 = y mod 2 ^ 32 -> to_int x = to_int y.
Proof.
  intros H. unfold to_int, wrap_signed.
  rewrite <- (Z.add_mod_idemp_l x), <- (Z.add_mod_idemp_l y) by lia.
  rewrite H. reflexivity.
Qed.

Lemma to_DWORD_to_int (x : Z) : to_DWORD (to_int x) = to_DWORD x.
Proof.
  unfold to_DWORD, to_int, wrap_unsigned, wrap_signed.
  change (32 - 1) with 31.
  rewrite (Z.mod_eq (x + 2 ^ 31) (2 ^ 32)) by lia.
  replace (x + 2 ^ 31 - 2 ^ 32 * ((x + 2 ^ 31) / 2 ^ 32) - 2 ^ 31)
    with (x + (- ((x + 2 ^ 31) / 2 ^ 32)) * 2 ^ 32) by lia.
  apply Z_mod_plus_full.
Qed.

Lemma to_int_range (x : Z) : - 2 ^ 31 <= to_int x <= INT_MAX.
Proof.
  unfold to_int, wrap_signed, INT_MAX. change (32 - 1) with 31.
  pose proof (Z.mod_pos_bound (x + 2 ^ 31) (2 ^ 32)). lia.
Qed.

(** The counts of two core records are added in either order. *)
Lemma count_core_comm (pw : PointerWidth) e1 e2 (result : Z * Z) :
  count_core pw e1 (count_core pw e2 result)
  = count_core pw e2 (count_core pw e1 result).
Proof.
  unfold count_core. cbn [fst snd]. f_equal.
  apply to_int_congruent. rewrite !to_DWORD_to_int.
  unfold to_DWORD, wrap_unsigned.
  rewrite !Z.add_mod_idemp_l by lia. f_equal. lia.
Qed.

(** A record is counted, skipped, or ends the scan, whatever follows it and
    whatever was counted before it. *)
Lemma scan_records_cons_cases (pw : PointerWidth) e :
  (is_core e = true /\
   forall records result,
     System.scan_records pw (e :: records) result
     = System.scan_records pw records (count_core pw e result)) \/
  (is_core e = false /\
   unsupported_relationship (Relationship e) = false /\
   forall records result,
     System.scan_records pw (e :: records) result
     = System.scan_records pw records result) \/
  (is_core e = false /\
   unsupported_relationship (Relationship e) = true /\
   forall records result,
     System.scan_records pw (e :: records) result = (-1, -1)).
Proof.
  unfold is_core.
  destruct (Z.eqb_spec (Relationship e) RelationProcessorCore) as [Hc | Hc].
  - left. split; [reflexivity |]. intros records result.
    apply scan_records_core, Hc.
  - right.
    destruct (unsupported_relationship (Relationship e)) eqn:Hu.
    + right. split; [reflexivity |]. split; [reflexivity |].
      intros records result. apply scan_records_unsupported, Hu.
    + left. split; [reflexivity |]. split; [reflexivity |].
      intros records result. cbn [System.scan_records].
      unfold unsupported_relationship in Hu. apply negb_false_iff in Hu.
      apply Z.eqb_neq in Hc. rewrite Hc in *. cbn [orb] in Hu.
      rewrite Hu. reflexivity.
Qed.

Lemma scan_records_permutation (pw : PointerWidth) records1 records2 :
  Permutation records1 records2 ->
  forall result,
    System.scan_records pw records1 result
    = System.scan_records pw records2 result.
Proof.
  induction 1 as [| e l1 l2 _ IH | e1 e2 l | l1 l2 l3 _ IH1 _ IH2];
    intros result.
  - reflexivity.
  - destruct (scan_records_cons_cases pw e)
      as [[_ He] | [[_ [_ He]] | [_ [_ He]]]]; rewrite !He;
      [apply IH | apply IH | reflexivity].
  - destruct (scan_records_cons_cases pw e1)
      as [[_ H1] | [[_ [_ H1]] | [_ [_ H1]]]];
      destruct (scan_records_cons_cases pw e2)
        as [[_ H2] | [[_ [_ H2]] | [_ [_ H2]]]];
      repeat first [rewrite H1 | rewrite H2]; try reflexivity.
    rewrite count_core_comm. reflexivity.
  - rewrite IH1. apply IH2.
Qed.

(** X5. The order of the records in the buffer does not matter: on two
    buffers that are permutations of each other [CpuTotalCores] returns the
    same pair, the failure pair included, with no assumption on the
    records. *)
Theorem CpuTotalCores_permutation (w1 w2 : WindowsOS) records1 records2 :
  win_pointer w1 = win_pointer w2 ->
  System.allocate_loop (GLPI_calls w1) = Some (Some records1) ->
  System.allocate_loop (GLPI_calls w2) = Some (Some records2) ->
  Permutation records1 records2 ->
  System.CpuTotalCores (Windows w1) = System.CpuTotalCores (Windows w2).
Proof.
  intros Hpw H1 H2 Hperm. cbn [System.CpuTotalCores].
  rewrite H1, H2, Hpw. f_equal. apply scan_records_permutation, Hperm.
Qed.

Lemma CpuTotalCores_permutation_witness :
  System.CpuTotalCores
    (Windows (with_GLPI_calls
                (two_calls [core 3; other_record 15 RelationCache])
                windows_host))
  = System.CpuTotalCores
      (Windows (with_GLPI_calls
                  [GLPI_TRUE [other_record 15 RelationCache; core 3]]
                  windows_host)).
Proof.
  apply (CpuTotalCores_permutation
           (with_GLPI_calls
              (two_calls [core 3; other_record 15 RelationCache])
              windows_host)
           (with_GLPI_calls
              [GLPI_TRUE [other_record 15 RelationCache; core 3]]
              windows_host)
           [core 3; other_record 15 RelationCache]
           [other_record 15 RelationCache; core 3]);
    try reflexivity.
  apply perm_swap.
Defined.

Lemma scan_records_core_records (pw : PointerWidth) records :
  forallb (fun e => negb (unsupported_relationship (Relationship e))) records
  = true ->
  forall result,
    System.scan_records pw records result
    = System.scan_records pw (core_records records) result.
Proof.
  induction records as [| e records IH]; intros Hsup result;
    [reflexivity |].
  cbn [forallb] in Hsup. apply andb_true_iff in Hsup.
  destruct Hsup as [He Hsup]. apply negb_true_iff in He.
  unfold core_records. cbn [filter]. fold (core_records records).
  destruct (scan_records_cons_cases pw e)
    as [[Hc H] | [[Hc [_ H]] | [_ [Hu _]]]].
  - rewrite Hc, !H. apply IH, Hsup.
  - rewrite Hc, H. apply IH, Hsup.
  - congruence.
Qed.

(** X6. NUMA-node, cache and package records never change the counts: as
    long as no record has an unsupported tag, [CpuTotalCores] returns what
    it returns on the processor-core records alone. *)
Theorem CpuTotalCores_ignores_other_records (w1 w2 : WindowsOS) records :
  win_pointer w1 = win_pointer w2 ->
  System.allocate_loop (GLPI_calls w1) = Some (Some records) ->
  System.allocate_loop (GLPI_calls w2) = Some (Some (core_records records)) ->
  forallb (fun e => negb (unsupported_relationship (Relationship e))) records
  = true ->
  System.CpuTotalCores (Windows w1) = System.CpuTotalCores (Windows w2).
Proof.
  intros Hpw H1 H2 Hsup. cbn [System.CpuTotalCores].
  rewrite H1, H2, Hpw. f_equal. apply scan_records_core_records, Hsup.
Qed.

Lemma CpuTotalCores_ignores_other_records_witness :
  System.CpuTotalCores (Windows windows_host)
  = System.CpuTotalCores
      (Windows (with_GLPI_calls (two_calls (core_records quad_core_ht))
                                windows_host)).
Proof.
  apply (CpuTotalCores_ignores_other_records
           windows_host
           (with_GLPI_calls (two_calls (core_records quad_core_ht))
                            windows_host)
           quad_core_ht);
    reflexivity.
Defined.

Lemma logical_processors_cons e records :
  logical_processors (e :: records)
  = (if is_core e then popcount (ProcessorMask e) else 0)
    + logical_processors records.
Proof.
  unfold logical_processors, core_records. cbn [filter].
  destruct (is_core e); reflexivity.
Qed.

Lemma physical_cores_cons e records :
  physical_cores (e :: records)
  = (if is_core e then 1 else 0) + physical_cores records.
Proof.
  unfold physical_cores, core_records. cbn [filter].
  destruct (is_core e); cbn [List.length]; lia.
Qed.

Lemma physical_cores_range records :
  0 <= physical_cores records <= Z.of_nat (List.length records).
Proof.
  induction records as [| e records IH].
  - unfold physical_cores. cbn. lia.
  - rewrite physical_cores_cons. cbn [List.length].
    destruct (is_core e); lia.
Qed.

(** Without overflow the scan adds, to the counts it starts from, the set
    bits of the core masks and the number of core records. *)
Lemma scan_records_sums (pw : PointerWidth) records :
  forall a b : Z,
    forallb (fun e => negb (unsupported_relationship (Relationship e)))
            records = true ->
    forallb (fun e => (0 <=? ProcessorMask e)
                      && (ProcessorMask e <? 2 ^ pointer_bits pw))
            records = true ->
    0 <= a -> 0 <= b ->
    a + Z.of_nat (List.length records) * pointer_bits pw <= INT_MAX ->
    b + Z.of_nat (List.length records) <= INT_MAX ->
    System.scan_records pw records (a, b)
    = (a + logical_processors records, b + physical_cores records).
Proof.
  induction records as [| e records IH];
    intros a b Hsup Hmasks Ha Hb Hlen1 Hlen2.
  - unfold logical_processors, physical_cores. cbn. f_equal; lia.
  - cbn [forallb] in Hsup, Hmasks.
    apply andb_true_iff in Hsup. destruct Hsup as [He Hsup].
    apply andb_true_iff in Hmasks. destruct Hmasks as [Hm Hmasks].
    apply andb_true_iff in Hm. destruct Hm as [Hlo Hhi].
    apply Z.leb_le in Hlo. apply Z.ltb_lt in Hhi.
    apply negb_true_iff in He.
    cbn [List.length] in Hlen1, Hlen2. rewrite Nat2Z.inj_succ in Hlen1, Hlen2.
    assert (Hw : 32 <= pointer_bits pw)
      by (destruct (pointer_bits_cases pw); lia).
    rewrite logical_processors_cons, physical_cores_cons.
    destruct (scan_records_cons_cases pw e)
      as [[Hc H] | [[Hc [_ H]] | [_ [Hu _]]]]; [| | congruence].
    + rewrite Hc, H. unfold count_core. cbn [fst snd].
      pose proof (CountSetBits_range pw (ProcessorMask e)) as Hbits.
      rewrite CountSetBits_is_popcount in * by lia.
      unfold INT_MAX in *.
      rewrite (to_DWORD_small a) by lia.
      rewrite !to_int_small by (unfold INT_MAX; lia).
      rewrite IH by (try assumption; unfold INT_MAX; lia).
      f_equal; lia.
    + rewrite Hc, H. rewrite IH by (try assumption; lia). f_equal; lia.
Qed.

(** X7. On Windows, when the buffer holds only records of the four
    supported kinds, with masks that fit [ULONG_PTR] and few enough records
    for [int], [CpuTotalCores] returns the number of bits set in the masks
    of the processor-core records and the number of those records;
    [CpuLogicalCores] and [CpuPhysicalCores] return the two numbers. *)
Theorem CpuTotalCores_counts (w : WindowsOS) records :
  System.allocate_loop (GLPI_calls w) = Some (Some records) ->
  supported_records (win_pointer w) records = true ->
  System.CpuTotalCores (Windows w)
  = Some (logical_processors records, physical_cores records) /\
  System.CpuLogicalCores (Windows w) = Some (logical_processors records) /\
  System.CpuPhysicalCores (Windows w) = Some (physical_cores records).
Proof.
  intros Hloop Hsup.
  assert (Htotal : System.CpuTotalCores (Windows w)
                   = Some (logical_processors records,
                           physical_cores records)).
  { cbn [System.CpuTotalCores]. rewrite Hloop. f_equal.
    unfold supported_records in Hsup.
    apply andb_true_iff in Hsup. destruct Hsup as [Hsup Hlen].
    apply andb_true_iff in Hsup. destruct Hsup as [Hsup Hmasks].
    apply Z.leb_le in Hlen.
    assert (Hw : 32 <= pointer_bits (win_pointer w))
      by (destruct (pointer_bits_cases (win_pointer w)); lia).
    rewrite scan_records_sums; try assumption; try lia; [reflexivity |].
    nia. }
  unfold System.CpuLogicalCores, System.CpuPhysicalCores.
  rewrite Htotal. repeat split.
Qed.

Lemma CpuTotalCores_counts_witness :
  System.CpuTotalCores (Windows windows_host)
  = Some (logical_processors quad_core_ht, physical_cores quad_core_ht).
Proof.
  apply (CpuTotalCores_counts windows_host quad_core_ht); reflexivity.
Defined.

Lemma cores_with_siblings (pw : PointerWidth) records :
  forallb (core_mask_nonempty pw) records = true ->
  physical_cores records <= logical_processors records /\
  (logical_processors records = physical_cores records
   <-> existsb (fun e => 2 <=? popcount (ProcessorMask e))
               (core_records records) = false).
Proof.
  induction records as [| e records IH]; intros Hmasks.
  - unfold logical_processors, physical_cores. cbn.
    split; [lia | split; reflexivity].
  - cbn [forallb] in Hmasks. apply andb_true_iff in Hmasks.
    destruct Hmasks as [He Hmasks]. specialize (IH Hmasks).
    destruct IH as [IHle IHiff].
    rewrite logical_processors_cons, physical_cores_cons.
    unfold core_records. cbn [filter]. fold (core_records records).
    unfold core_mask_nonempty in He. fold (is_core e) in He.
    destruct (is_core e); [| split; [lia | rewrite <- IHiff; lia]].
    cbn [implb] in He. apply andb_true_iff in He. destruct He as [Hlo _].
    apply Z.ltb_lt in Hlo. pose proof (popcount_pos _ Hlo) as Hpos.
    cbn [existsb].
    split; [lia |].
    destruct (Z.leb_spec 2 (popcount (ProcessorMask e))); cbn [orb].
    + split; [lia | discriminate].
    + rewrite <- IHiff. lia.
Qed.

(** X8. On Windows, with supported records and non-empty core masks,
    [CpuHyperThreading] is true exactly when some processor-core record has
    two or more bits set in its mask. *)
Theorem CpuHyperThreading_windows (w : WindowsOS) records :
  System.allocate_loop (GLPI_calls w) = Some (Some records) ->
  supported_records (win_pointer w) records = true ->
  forallb (core_mask_nonempty (win_pointer w)) records = true ->
  System.CpuHyperThreading (Windows w)
  = Some (existsb (fun e => 2 <=? popcount (ProcessorMask e))
                  (core_records records)).
Proof.
  intros Hloop Hsup Hmasks.
  unfold System.CpuHyperThreading. cbn [System.CpuTotalCores].
  rewrite Hloop.
  unfold supported_records in Hsup.
  apply andb_true_iff in Hsup. destruct Hsup as [Hsup Hlen].
  apply andb_true_iff in Hsup. destruct Hsup as [Hsup Hrange].
  apply Z.leb_le in Hlen.
  assert (Hw : 32 <= pointer_bits (win_pointer w))
    by (destruct (pointer_bits_cases (win_pointer w)); lia).
  rewrite scan_records_sums; try assumption; try lia; [| nia].
  cbn [fst snd Z.add]. f_equal.
  destruct (cores_with_siblings (win_pointer w) records Hmasks)
    as [_ Hiff].
  destruct (Z.eqb_spec (logical_processors records)
                       (physical_cores records)) as [Heq | Hne];
    cbn [negb].
  - symmetry. apply Hiff, Heq.
  - destruct (existsb _ (core_records records)); [reflexivity |].
    exfalso. apply Hne, Hiff. reflexivity.
Qed.

Lemma CpuHyperThreading_windows_witness :
  System.CpuHyperThreading (Windows windows_host)
  = Some (existsb (fun e => 2 <=? popcount (ProcessorMask e))
                  (core_records quad_core_ht)).
Proof.
  apply (CpuHyperThreading_windows windows_host quad_core_ht); reflexivity.
Defined.

(** ** CpuTotalCores on Windows: the allocation loop *)

Lemma allocate_loop_asks_again (retries calls : list GLPI_outcome) :
  forallb asks_again retries = true ->
  System.allocate_loop (retries ++ calls)%list = System.allocate_loop calls.
Proof.
  induction retries as [| answer retries IH]; intros Hretries;
    [reflexivity |].
  cbn [forallb] in Hretries. apply andb_true_iff in Hretries.
  destruct Hretries as [Hanswer Hretries].
  unfold asks_again in Hanswer. apply negb_true_iff in Hanswer.
  destruct answer as [records | last_error malloc_ok];
    [discriminate Hanswer |].
  cbn [ends_allocate_loop] in Hanswer. apply negb_false_iff in Hanswer.
  apply andb_true_iff in Hanswer. destruct Hanswer as [Herr Hok].
  cbn [app System.allocate_loop]. rewrite Herr, Hok. apply IH, Hretries.
Qed.

Lemma allocate_loop_first_end (answer : GLPI_outcome) calls :
  ends_allocate_loop answer = true ->
  System.allocate_loop (answer :: calls) = System.allocate_loop [answer].
Proof.
  destruct answer as [records | last_error malloc_ok]; [reflexivity |].
  cbn [ends_allocate_loop System.allocate_loop]. intros Hend.
  apply negb_true_iff in Hend.
  destruct (last_error =? ERROR_INSUFFICIENT_BUFFER); [| reflexivity].
  destruct malloc_ok; [discriminate Hend | reflexivity].
Qed.

(** X9. [CpuTotalCores] depends on the first answer of
    [GetLogicalProcessorInformation] that ends the loop, and on nothing
    else: the answers [ERROR_INSUFFICIENT_BUFFER] before it, however many,
    and the answers the OS would give after it change nothing. *)
Theorem CpuTotalCores_first_ending_answer
        (w : WindowsOS) (retries rest : list GLPI_outcome)
        (answer : GLPI_outcome) :
  forallb asks_again retries = true ->
  ends_allocate_loop answer = true ->
  System.CpuTotalCores
    (Windows (with_GLPI_calls (retries ++ answer :: rest)%list w))
  = System.CpuTotalCores (Windows (with_GLPI_calls [answer] w)).
Proof.
  intros Hretries Hend.
  cbn [System.CpuTotalCores with_GLPI_calls GLPI_calls win_pointer].
  rewrite allocate_loop_asks_again by exact Hretries.
  rewrite (allocate_loop_first_end answer rest) by exact Hend.
  reflexivity.
Qed.

Lemma CpuTotalCores_first_ending_answer_witness :
  System.CpuTotalCores
    (Windows
       (with_GLPI_calls
          [GLPI_FALSE ERROR_INSUFFICIENT_BUFFER true;
           GLPI_FALSE ERROR_INSUFFICIENT_BUFFER true;
           GLPI_TRUE quad_core_ht; GLPI_FALSE 5 false]
          windows_host))
  = System.CpuTotalCores
      (Windows (with_GLPI_calls [GLPI_TRUE quad_core_ht] windows_host)).
Proof.
  apply (CpuTotalCores_first_ending_answer windows_host
           [GLPI_FALSE ERROR_INSUFFICIENT_BUFFER true;
            GLPI_FALSE ERROR_INSUFFICIENT_BUFFER true]
           [GLPI_FALSE 5 false] (GLPI_TRUE quad_core_ht));
    reflexivity.
Defined.

(** X10. When, after any number of repeated sizings, the call fails with an
    error other than [ERROR_INSUFFICIENT_BUFFER], or the buffer cannot be
    allocated, [CpuTotalCores] returns (-1, -1), and with it
    [CpuLogicalCores] and [CpuPhysicalCores] return -1 and
    [CpuHyperThreading] false. *)
Theorem CpuTotalCores_enumeration_failure
        (w : WindowsOS) (retries rest : list GLPI_outcome)
        (last_error : Z) (malloc_ok : bool) :
  forallb asks_again retries = true ->
  last_error <> ERROR_INSUFFICIENT_BUFFER \/ malloc_ok = false ->
  let os :=
    Windows (with_GLPI_calls
               (retries ++ GLPI_FALSE last_error malloc_ok :: rest)%list w) in
  System.CpuTotalCores os = Some (-1, -1) /\
  System.CpuLogicalCores os = Some (-1) /\
  System.CpuPhysicalCores os = Some (-1) /\
  System.CpuHyperThreading os = Some false.
Proof.
  intros Hretries Hfail os.
  assert (Htotal : System.CpuTotalCores os = Some (-1, -1)).
  { subst os.
    cbn [System.CpuTotalCores with_GLPI_calls GLPI_calls win_pointer].
    rewrite allocate_loop_asks_again by exact Hretries.
    cbn [System.allocate_loop].
    destruct Hfail as [Herr | Hok].
    - apply Z.eqb_neq in Herr. rewrite Herr. reflexivity.
    - rewrite Hok.
      destruct (last_error =? ERROR_INSUFFICIENT_BUFFER); reflexivity. }
  unfold System.CpuLogicalCores, System.CpuPhysicalCores,
    System.CpuHyperThreading.
  rewrite Htotal. repeat split.
Qed.

Lemma CpuTotalCores_enumeration_failure_witness :
  System.CpuTotalCores
    (Windows
       (with_GLPI_calls
          [GLPI_FALSE ERROR_INSUFFICIENT_BUFFER true;
           GLPI_FALSE ERROR_INSUFFICIENT_BUFFER false;
           GLPI_TRUE quad_core_ht]
          windows_host))
  = Some (-1, -1).
Proof.
  apply (CpuTotalCores_enumeration_failure windows_host
           [GLPI_FALSE ERROR_INSUFFICIENT_BUFFER true]
           [GLPI_TRUE quad_core_ht] ERROR_INSUFFICIENT_BUFFER false);
    [reflexivity | right; reflexivity].
Defined.

(** ** CpuTotalCores and CpuHyperThreading on Unix *)

(** X11. On Unix hyper-threading is never reported: for every answer of
    [sysconf], the failure -1 included, [CpuHyperThreading] returns false,
    and [CpuLogicalCores] and [CpuPhysicalCores] return the same number,
    which lies in the range of [int]. *)
Theorem CpuHyperThreading_unix (u : UnixOS) :
  System.CpuHyperThreading (Unix u) = Some false /\
  System.CpuLogicalCores (Unix u) = System.CpuPhysicalCores (Unix u) /\
  exists n, System.CpuLogicalCores (Unix u) = Some n /\
            - 2 ^ 31 <= n <= INT_MAX.
Proof.
  unfold System.CpuHyperThreading, System.CpuLogicalCores,
    System.CpuPhysicalCores.
  cbn [System.CpuTotalCores option_map fst snd].
  rewrite Z.eqb_refl. repeat split.
  eexists. split; [reflexivity | apply to_int_range].
Qed.

(** ** CpuArchitecture and CpuClockSpeed on Unix *)


(** X12. On Unix the text that [CpuArchitecture] returns never holds a
    line feed or a carriage return: it is the one-line sentinel or a group
    of wildcards. *)
Theorem CpuArchitecture_unix_one_line (u : UnixOS) :
  all_chars any_char (System.CpuArchitecture (Unix u)) = true.
Proof.
  cbn [System.CpuArchitecture].
  destruct (regex_match_field "model name" (read_all (proc_cpuinfo u)))
    as [group |] eqn:Hm; [| reflexivity].
  apply regex_match_field_spec in Hm.
  destruct Hm as [spaces [_ [Hany _]]]. exact Hany.
Qed.

(** X13. On Unix, when [/proc/cpuinfo] cannot be opened, is empty, or ends
    with a line feed, as every file made of lines does, [CpuArchitecture]
    returns the sentinel text and [CpuClockSpeed] returns -1. *)
Theorem cpuinfo_lines_give_sentinels (u : UnixOS) :
  proc_cpuinfo u = None \/
  proc_cpuinfo u = Some EmptyString \/
  (exists text, proc_cpuinfo u = Some text /\ last_char text = Some LF) ->
  System.CpuArchitecture (Unix u) = "<unknown>" /\
  System.CpuClockSpeed (Unix u) = -1.
Proof.
  cbn [System.CpuArchitecture System.CpuClockSpeed].
  intros [Hfile | [Hfile | [text [Hfile Hlast]]]]; rewrite Hfile;
    cbn [read_all].
  - split; reflexivity.
  - split; reflexivity.
  - rewrite !regex_match_field_trailing_newline by exact Hlast.
    split; reflexivity.
Qed.

Lemma cpuinfo_lines_give_sentinels_witness :
  System.CpuArchitecture (Unix unix_host) = "<unknown>" /\
  System.CpuClockSpeed (Unix unix_host) = -1.
Proof.
  apply (cpuinfo_lines_give_sentinels unix_host).
  right. right. exists cpuinfo_sample. split; reflexivity.
Defined.

Lemma regex_match_field_first_char (label text group : string) (c : ascii) :
  regex_match_field (String c label) text = Some group ->
  exists rest, text = String c rest.
Proof.
  unfold regex_match_field. cbn [strip_literal].
  destruct text as [| d rest]; [discriminate |].
  destruct (Ascii.eqb_spec c d) as [-> | Hne]; [| discriminate].
  intros _. exists rest. reflexivity.
Qed.

(** X14. On Unix the two queries never both find their field: one text
    cannot begin with "model name" and with "cpu MHz", so for every file
    [CpuClockSpeed] returns -1 or [CpuArchitecture] returns the sentinel. *)
Theorem cpuinfo_queries_exclude_each_other (u : UnixOS) :
  System.CpuClockSpeed (Unix u) = -1 \/
  System.CpuArchitecture (Unix u) = "<unknown>".
Proof.
  cbn [System.CpuArchitecture System.CpuClockSpeed].
  destruct (regex_match_field "cpu MHz" (read_all (proc_cpuinfo u)))
    as [mhz |] eqn:Hmhz; [| left; reflexivity].
  destruct (regex_match_field "model name" (read_all (proc_cpuinfo u)))
    as [name |] eqn:Hname; [| right; reflexivity].
  apply regex_match_field_first_char in Hmhz, Hname.
  destruct Hmhz as [rest1 H1]. destruct Hname as [rest2 H2].
  rewrite H1 in H2. discriminate H2.
Qed.

(** X15. On Unix [CpuArchitecture] returns the sentinel unless the whole
    file matches the pattern of the source; when it matches, the file is
    "model name", white space, a colon, a blank and the text returned. *)
Theorem CpuArchitecture_unix_pattern (u : UnixOS) :
  let text := read_all (proc_cpuinfo u) in
  (matches (field_regex "model name") text ->
   exists spaces,
     all_chars isspace spaces = true /\
     text = "model name" ++ spaces ++ ": "
            ++ System.CpuArchitecture (Unix u)) /\
  (~ matches (field_regex "model name") text ->
   System.CpuArchitecture (Unix u) = "<unknown>").
Proof.
  cbv zeta. cbn [System.CpuArchitecture]. split.
  - intros Hm. apply regex_match_field_matches in Hm.
    destruct Hm as [group Hgroup]. rewrite Hgroup.
    apply regex_match_field_spec in Hgroup.
    destruct Hgroup as [spaces [Hspaces [_ Htext]]].
    exists spaces. split; assumption.
  - intros Hno.
    destruct (regex_match_field "model name" (read_all (proc_cpuinfo u)))
      as [group |] eqn:Hm; [| reflexivity].
    exfalso. apply Hno, regex_match_field_matches.
    exists group. exact Hm.
Qed.

Lemma CpuArchitecture_unix_pattern_witness :
  exists spaces,
    all_chars isspace spaces = true /\
    field "model name" "Intel"
    = "model name" ++ spaces ++ ": "
      ++ System.CpuArchitecture
           (Unix (with_cpuinfo (Some (field "model name" "Intel"))
                               unix_host)).
Proof.
  apply (proj1 (CpuArchitecture_unix_pattern
                  (with_cpuinfo (Some (field "model name" "Intel"))
                                unix_host))).
  apply regex_match_field_matches. eexists. reflexivity.
Defined.









(** ** CpuArchitecture and CpuClockSpeed on Windows *)




Lemma DWORD_product (m : Z) :
  to_DWORD (to_DWORD (to_DWORD m * 1000) * 1000) = (m * 1000000) mod 2 ^ 32.
Proof.
  unfold to_DWORD, wrap_unsigned.
  rewrite Z.mul_mod_idemp_l by lia.
  rewrite <- Z.mul_assoc, Z.mul_mod_idemp_l by lia.
  reflexivity.
Qed.

(** X18. On Windows, when both registry calls succeed, [CpuClockSpeed]
    returns the frequency in Hz reduced modulo 2^32, for every value of
    the registry: the exact frequency up to 4294 MHz. *)
Theorem CpuClockSpeed_windows_modulo (w : WindowsOS) :
  RegOpenKeyEx_result w = ERROR_SUCCESS ->
  MHz_result w = ERROR_SUCCESS ->
  System.CpuClockSpeed (Windows w) = (MHz_data w * 1000000) mod 2 ^ 32 /\
  (0 <= MHz_data w <= 4294 ->
   System.CpuClockSpeed (Windows w) = MHz_data w * 1000000).
Proof.
  intros Hopen Hquery. cbn [System.CpuClockSpeed].
  rewrite Hopen, Hquery. cbn [Z.eqb negb ERROR_SUCCESS].
  rewrite DWORD_product.
  pose proof (Z.mod_pos_bound (MHz_data w * 1000000) (2 ^ 32)) as Hbound.
  rewrite to_int64_small by lia.
  split; [reflexivity |].
  intros Hrange. apply Z.mod_small. lia.
Qed.

Lemma CpuClockSpeed_windows_modulo_witness :
  System.CpuClockSpeed (Windows windows_host) = 3998 * 1000000.
Proof.
  apply (proj2 (CpuClockSpeed_windows_modulo windows_host eq_refl eq_refl)).
  vm_compute. split; congruence.
Defined.

(** X19. On Windows the sentinel of [CpuClockSpeed] is unambiguous: the
    result is -1 exactly when a registry call fails, and otherwise lies
    between 0 and 2^32 - 1, so no frequency of 4295 MHz or more is ever
    reported as such. *)
Theorem CpuClockSpeed_windows_sentinel (w : WindowsOS) :
  (System.CpuClockSpeed (Windows w) = -1 <->
   RegOpenKeyEx_result w <> ERROR_SUCCESS \/
   MHz_result w <> ERROR_SUCCESS) /\
  (System.CpuClockSpeed (Windows w) = -1 \/
   0 <= System.CpuClockSpeed (Windows w) < 2 ^ 32).
Proof.
  cbn [System.CpuClockSpeed].
  pose proof (Z.mod_pos_bound (MHz_data w * 1000000) (2 ^ 32)) as Hbound.
  destruct (Z.eqb_spec (RegOpenKeyEx_result w) ERROR_SUCCESS) as [Ho | Ho];
    cbn [negb]; [| split; [tauto | left; reflexivity]].
  destruct (Z.eqb_spec (MHz_result w) ERROR_SUCCESS) as [Hq | Hq];
    cbn [negb]; [| split; [tauto | left; reflexivity]].
  rewrite DWORD_product, to_int64_small by lia.
  split; [| right; lia].
  split; [lia | tauto].
Qed.

(** ** RamTotal and RamFree *)

(** X20. On Windows, when [GlobalMemoryStatusEx] succeeds, [RamTotal] and
    [RamFree] return the two byte counts it stores, whatever the local
    structure held before the call. *)
Theorem Ram_windows_success (w : WindowsOS) (filled : MEMORYSTATUSEX) :
  GlobalMemoryStatusEx_result w = Some filled ->
  0 <= ullTotalPhys filled < 2 ^ 63 ->
  0 <= ullAvailPhys filled < 2 ^ 63 ->
  System.RamTotal (Windows w) = ullTotalPhys filled /\
  System.RamFree (Windows w) = ullAvailPhys filled.
Proof.
  intros Hcall Htotal Havail. cbn [System.RamTotal System.RamFree].
  unfold System.memory_status. rewrite Hcall. unfold wrap_unsigned.
  rewrite !Z.mod_small by lia.
  rewrite !to_int64_small by lia. split; reflexivity.
Qed.

Lemma Ram_windows_success_witness :
  System.RamTotal (Windows windows_host) = 17179869184 /\
  System.RamFree (Windows windows_host) = 8589934592.
Proof.
  apply (Ram_windows_success windows_host
           {| ullTotalPhys := 17179869184; ullAvailPhys := 8589934592 |});
    [reflexivity | |]; vm_compute; split; congruence.
Defined.

(** X21. On Unix, when [sysinfo] succeeds, [RamTotal] and [RamFree] return
    the fields [totalram] and [freeram] as they are, for every value an
    [unsigned long] can hold below 2^63. *)
Theorem Ram_unix_sysinfo_success (u : UnixOS) :
  sysinfo_result u = 0 ->
  0 <= totalram (sysinfo_si u) < 2 ^ pointer_bits (unix_pointer u) ->
  0 <= freeram (sysinfo_si u) < 2 ^ pointer_bits (unix_pointer u) ->
  totalram (sysinfo_si u) < 2 ^ 63 ->
  freeram (sysinfo_si u) < 2 ^ 63 ->
  System.RamTotal (Unix u) = totalram (sysinfo_si u) /\
  System.RamFree (Unix u) = freeram (sysinfo_si u).
Proof.
  intros Hok Htotal Hfree Htotal63 Hfree63.
  cbn [System.RamTotal System.RamFree].
  rewrite Hok. cbn [Z.eqb]. unfold wrap_unsigned.
  rewrite !Z.mod_small by lia.
  rewrite !to_int64_small by lia. split; reflexivity.
Qed.

Lemma Ram_unix_sysinfo_success_witness :
  System.RamTotal (Unix unix_host) = 17179869184 /\
  System.RamFree (Unix unix_host) = 8589934592.
Proof.
  apply (Ram_unix_sysinfo_success unix_host);
    [reflexivity | | | |]; vm_compute; try split; congruence.
Defined.

(** X22. On Unix, when [sysinfo] fails, [RamTotal] and [RamFree] return -1
    where [long] has 64 bits and 4294967295 where it has 32: the -1 of the
    conditional becomes an [unsigned long] before it becomes an
    [int64_t]. *)
Theorem Ram_unix_sysinfo_failure (u : UnixOS) :
  sysinfo_result u <> 0 ->
  let sentinel :=
    match unix_pointer u with Bits64 => -1 | Bits32 => 2 ^ 32 - 1 end in
  System.RamTotal (Unix u) = sentinel /\ System.RamFree (Unix u) = sentinel.
Proof.
  intros Hfail. cbn [System.RamTotal System.RamFree].
  apply Z.eqb_neq in Hfail. rewrite Hfail.
  destruct (unix_pointer u); split; reflexivity.
Qed.

Lemma Ram_unix_sysinfo_failure_witness :
  System.RamFree (Unix (with_sysinfo_failing Bits32 unix_host))
  = 2 ^ 32 - 1.
Proof.
  apply (Ram_unix_sysinfo_failure (with_sysinfo_failing Bits32 unix_host)).
  discriminate.
Defined.

(** ** CurrentThreadId *)

Lemma to_int_injective (a b : Z) :
  0 <= a < 2 ^ 32 -> 0 <= b < 2 ^ 32 -> to_int a = to_int b -> a = b.
Proof.
  intros Ha Hb Heq.
  assert (H : to_DWORD (to_int a) = to_DWORD (to_int b)) by now rewrite Heq.
  rewrite !to_DWORD_to_int, !to_DWORD_small in H by assumption. exact H.
Qed.

(** X23. Where the thread identifier of the OS has 32 bits, on Windows and
    on Unix with a 32-bit [long], [CurrentThreadId] keeps threads apart:
    two identifiers give the same [int] only when they are equal. The [int]
    is negative for the identifiers from 2^31 on. *)
Theorem CurrentThreadId_32_injective (id1 id2 : Z) :
  0 <= id1 < 2 ^ 32 ->
  0 <= id2 < 2 ^ 32 ->
  (System.CurrentThreadId (WindowsThread id1)
   = System.CurrentThreadId (WindowsThread id2) -> id1 = id2) /\
  (System.CurrentThreadId (UnixThread Bits32 id1)
   = System.CurrentThreadId (UnixThread Bits32 id2) -> id1 = id2) /\
  (System.CurrentThreadId (WindowsThread id1) < 0 <-> 2 ^ 31 <= id1).
Proof.
  intros H1 H2. cbn [System.CurrentThreadId].
  change (wrap_unsigned (pointer_bits Bits32)) with to_DWORD.
  rewrite !to_DWORD_small by assumption.
  split; [apply to_int_injective; assumption |].
  split; [apply to_int_injective; assumption |].
  unfold to_int, wrap_signed. change (32 - 1) with 31.
  destruct (Z_lt_le_dec id1 (2 ^ 31)) as [Hlt | Hge].
  - rewrite Z.mod_small by lia. lia.
  - replace (id1 + 2 ^ 31) with (id1 - 2 ^ 31 + 1 * 2 ^ 32) by lia.
    rewrite Z_mod_plus_full, Z.mod_small by lia. lia.
Qed.

Lemma CurrentThreadId_32_injective_witness :
  System.CurrentThreadId (WindowsThread 4294967295) < 0.
Proof.
  apply (proj2 (proj2 (CurrentThreadId_32_injective
                         4294967295 7
                         ltac:(vm_compute; split; congruence)
                         ltac:(vm_compute; split; congruence)))).
  vm_compute. congruence.
Defined.

(** X24. On Unix with a 64-bit [long] the conversion to [int] drops the
    upper half of the [pthread_t]: two threads whose identifiers differ by
    a multiple of 2^32 get the same [CurrentThreadId]. The result always
    lies in the range of [int]. *)
Theorem CurrentThreadId_64_collides (self k : Z) :
  0 <= self -> 0 <= k -> self + k * 2 ^ 32 < 2 ^ 64 ->
  System.CurrentThreadId (UnixThread Bits64 (self + k * 2 ^ 32))
  = System.CurrentThreadId (UnixThread Bits64 self) /\
  - 2 ^ 31 <= System.CurrentThreadId (UnixThread Bits64 self) <= INT_MAX.
Proof.
  intros Hself Hk Hrange. cbn [System.CurrentThreadId].
  split; [| apply to_int_range].
  change (pointer_bits Bits64) with 64. unfold wrap_unsigned.
  rewrite !Z.mod_small by nia.
  apply to_int_congruent. apply Z_mod_plus_full.
Qed.

Lemma CurrentThreadId_64_collides_witness :
  System.CurrentThreadId (UnixThread Bits64 (140737488355328 + 1 * 2 ^ 32))
  = System.CurrentThreadId (UnixThread Bits64 140737488355328).
Proof.
  apply (CurrentThreadId_64_collides 140737488355328 1);
    vm_compute; congruence.
Defined.
